(** * pdf-extractor: the token-budgeted chunk splitter, the page-range
    parser and the extraction orchestrator of [pdf-extractor.py].

    The development embeds the three functions of the module that carry
    logic ([split_text_into_chunks], [parse_page_range] and
    [extract_data_with_openai], together with [generate_prompt]) and
    states the properties of the specification over them.

    Conventions.
    - A Python [str] is a [string]; each character stands for the code
      point of the same number (U+0000 to U+00FF).
    - A Python [int] is a [Z].
    - Library objects of the interpreter's environment that the module
      receives or imports (the tokenizer, [str.format], [str] of a
      list, [json.loads], the chat-completion client) are parameters of
      the sections that use them. *)

From Stdlib Require Import ZArith Ascii String List Lia Bool.
From stdpp Require Import base tactics option list list_numbers sorting gmap strings.

Local Open Scope string_scope.
Local Open Scope Z_scope.
Local Open Scope list_scope.

(** ** Python string primitives used by the module *)

Module Py.

Definition newline : ascii := "010"%char.
Definition nl : string := String newline EmptyString.

(** [str.isspace] on one character, for code points below 256:
    TAB..CR, FS..US, SPACE, NEL and NBSP. *)
Definition isspace (c : ascii) : bool :=
  let n := N_of_ascii c in
  ((9 <=? n) && (n <=? 13) || (28 <=? n) && (n <=? 32)
   || (n =? 133) || (n =? 160))%N.

(** The C-level [Py_ISSPACE] that [int] uses on ASCII input. *)
Definition c_isspace (c : ascii) : bool :=
  let n := N_of_ascii c in
  ((9 <=? n) && (n <=? 13) || (n =? 32))%N.

Fixpoint lstrip (s : string) : string :=
  match s with
  | EmptyString => EmptyString
  | String c s' => if isspace c then lstrip s' else s
  end.

Fixpoint rstrip (s : string) : string :=
  match s with
  | EmptyString => EmptyString
  | String c s' =>
      match rstrip s' with
      | EmptyString => if isspace c then EmptyString else String c EmptyString
      | r => String c r
      end
  end.

(** [s.strip()] *)
Definition strip (s : string) : string := rstrip (lstrip s).

(** [not s.strip()] *)
Definition blank (s : string) : bool :=
  match strip s with EmptyString => true | _ => false end.

(** [s.split(sep)] for a one-character separator: never the empty
    list, and empty fields are kept. *)
Fixpoint split (sep : ascii) (s : string) : list string :=
  match s with
  | EmptyString => [EmptyString]
  | String c s' =>
      if Ascii.eqb c sep then EmptyString :: split sep s'
      else match split sep s' with
           | [] => [String c EmptyString]
           | w :: ws => String c w :: ws
           end
  end.

(** [c in s] for a one-character [c]. *)
Fixpoint contains (c : ascii) (s : string) : bool :=
  match s with
  | EmptyString => false
  | String d s' => Ascii.eqb d c || contains c s'
  end.

(** [s.replace(a, b)] for one-character [a] and [b]. *)
Fixpoint replace (a b : ascii) (s : string) : string :=
  match s with
  | EmptyString => EmptyString
  | String c s' => String (if Ascii.eqb c a then b else c) (replace a b s')
  end.

Definition digit (c : ascii) : option Z :=
  let n := N_of_ascii c in
  if ((48 <=? n) && (n <=? 57))%N then Some (Z.of_N n - 48) else None.

(** The digits of a decimal literal, most significant first. A single
    underscore may separate two digits; [prev] tells whether the
    previous character was a digit. What follows the digits must be
    white space only. *)
Fixpoint all_c_space (s : string) : bool :=
  match s with
  | EmptyString => true
  | String c s' => c_isspace c && all_c_space s'
  end.

Fixpoint digits (acc : Z) (prev : bool) (s : string) : option Z :=
  match s with
  | EmptyString => if prev then Some acc else None
  | String c s' =>
      match digit c with
      | Some d => digits (10 * acc + d) true s'
      | None =>
          if Ascii.eqb c "_" then
            if prev then
              match s' with
              | String c' _ =>
                  match digit c' with
                  | Some _ => digits acc false s'
                  | None => None
                  end
              | EmptyString => None
              end
            else None
          else if prev && all_c_space s then Some acc else None
      end
  end.

Fixpoint c_lstrip (s : string) : string :=
  match s with
  | EmptyString => EmptyString
  | String c s' => if c_isspace c then c_lstrip s' else s
  end.

(** On a string with a character above U+007F, [int] first turns
    every Unicode space into an ASCII space. *)
Fixpoint is_ascii (s : string) : bool :=
  match s with
  | EmptyString => true
  | String c s' => (N_of_ascii c <? 128)%N && is_ascii s'
  end.

Fixpoint spaces_to_ascii (s : string) : string :=
  match s with
  | EmptyString => EmptyString
  | String c s' =>
      String (if (127 <=? N_of_ascii c)%N && isspace c then " "%char else c)
             (spaces_to_ascii s')
  end.

(** The number of decimal digits in [s]; signs, underscores and white
    space do not count. *)
Fixpoint count_digits (s : string) : Z :=
  match s with
  | EmptyString => 0
  | String c s' =>
      match digit c with
      | Some _ => 1 + count_digits s'
      | None => count_digits s'
      end
  end.

(** [sys.get_int_max_str_digits()], at its default. *)
Definition int_max_str_digits : Z := 4300.

(** [int(s)] in base ten; [None] stands for [ValueError]. The
    interpreter also raises it on a literal of more than
    [int_max_str_digits] digits, leading zeros included. *)
Definition int (s : string) : option Z :=
  let s := if is_ascii s then s else spaces_to_ascii s in
  if int_max_str_digits <? count_digits s then None
  else
    match c_lstrip s with
    | String "+" s' => digits 0 false s'
    | String "-" s' => Z.opp <$> digits 0 false s'
    | s' => digits 0 false s'
    end.

(** [list(range(a, b))] *)
Definition range (a b : Z) : list Z := seqZ a (b - a).

(** [l[:k]] and [l[k:]] for any integer [k]: a negative [k] counts
    from the end, and out-of-range bounds are clipped. *)
Definition slice_to {A} (l : list A) (k : Z) : list A :=
  if k <? 0 then take (Z.to_nat (Z.of_nat (length l) + k)) l
  else take (Z.to_nat k) l.

Definition slice_from {A} (l : list A) (k : Z) : list A :=
  if k <? 0 then drop (Z.to_nat (Z.of_nat (length l) + k)) l
  else drop (Z.to_nat k) l.

(** [sorted(list(set(l)))] on integers: the order in which the set
    lists its elements does not matter, the result is sorted. *)
Definition sorted_set (l : list Z) : list Z :=
  merge_sort Z.le (elements (list_to_set l : gset Z)).

End Py.

(** ** Page Range Parser *)

(** The [for] loop of [parse_page_range]: [None] is the early
    [return []] of either [except] clause, [Some pages] the list built
    when the loop runs to its end. *)
Fixpoint parse_parts (total_pages : Z) (parts : list string) (pages : list Z)
  : option (list Z) :=
  match parts with
  | [] => Some pages
  | part :: parts' =>
      if Py.contains "-" part then
        match Py.int <$> Py.split "-" part with
        | [Some start; Some end_] =>
            let start := Z.max 1 start in
            let end_ := Z.min total_pages end_ in
            parse_parts total_pages parts' (pages ++ Py.range (start - 1) end_)
        | _ => None
        end
      else
        match Py.int part with
        | Some page =>
            if (1 <=? page) && (page <=? total_pages)
            then parse_parts total_pages parts' (pages ++ [page - 1])
            else parse_parts total_pages parts' pages
        | None => None
        end
  end.

Definition parse_page_range (page_range_str : string) (total_pages : Z) : list Z :=
  if Py.blank page_range_str then Py.range 0 total_pages
  else
    match parse_parts total_pages (Py.split "," page_range_str) [] with
    | None => []
    | Some pages => Py.sorted_set pages
    end.

(** ** Chunk Splitter *)

(** A token is the integer identifier the tokenizer gives it. *)
Definition token := Z.

(** The [encoding] argument of [split_text_into_chunks]: an object
    with an [encode] and a [decode] method. [encode] is taken on the
    texts the tokenizer accepts (with its default arguments tiktoken
    rejects a text that spells one of its special tokens). *)
Record encoding := Encoding {
  encode : string -> list token;
  decode : list token -> string
}.

(** The local variables of [split_text_into_chunks] that its [for]
    loop updates. *)
Record split_state (C : Type) := SplitState {
  chunks : list C;
  current_chunk : list token;
  current_token_count : Z
}.
Arguments SplitState {C}.
Arguments chunks {C}.
Arguments current_chunk {C}.
Arguments current_token_count {C}.

Section Splitter.
Variable enc : encoding.
(** What is appended to [chunks] for a token buffer: the source
    appends [encoding.decode(buffer)]; taking the buffer itself
    exposes the tokens a chunk was decoded from. *)
Context {C : Type} (emit : list token -> C).

(** [while tokens:] of the oversize-paragraph branch. [None]: the
    loop is still running when the fuel is spent. *)
Fixpoint slice_loop (fuel : nat) (max_tokens : Z) (tokens : list token)
    (chunks : list C) : option (list C) :=
  match fuel with
  | O => None
  | S fuel' =>
      match tokens with
      | [] => Some chunks
      | _ :: _ =>
          let take := Z.min (Z.of_nat (length tokens)) max_tokens in
          let chunk_tokens := Py.slice_to tokens take in
          slice_loop fuel' max_tokens (Py.slice_from tokens take)
                     (chunks ++ [emit chunk_tokens])
      end
  end.

(** One pass through the body of [for para in paragraphs:]. *)
Definition split_paragraph (fuel : nat) (max_tokens : Z)
    (st : split_state C) (para : string) : option (split_state C) :=
  let para_tokens := encode enc para in
  let para_token_count := Z.of_nat (length para_tokens) in
  if max_tokens <? current_token_count st + para_token_count then
    let st :=
      match current_chunk st with
      | [] => st
      | _ :: _ => SplitState (chunks st ++ [emit (current_chunk st)]) [] 0
      end in
    if max_tokens <? para_token_count then
      chunks' ← slice_loop fuel max_tokens para_tokens (chunks st);
      Some (SplitState chunks' (current_chunk st) (current_token_count st))
    else
      Some (SplitState (chunks st) para_tokens para_token_count)
  else
    Some (SplitState (chunks st)
            (current_chunk st ++ para_tokens ++ encode enc Py.nl)
            (current_token_count st + para_token_count + 1)).

Fixpoint split_paragraphs (fuel : nat) (max_tokens : Z)
    (st : split_state C) (paragraphs : list string) : option (split_state C) :=
  match paragraphs with
  | [] => Some st
  | para :: rest =>
      st' ← split_paragraph fuel max_tokens st para;
      split_paragraphs fuel max_tokens st' rest
  end.

(** The final flush. *)
Definition final_chunks (st : split_state C) : list C :=
  match current_chunk st with
  | [] => chunks st
  | _ :: _ => chunks st ++ [emit (current_chunk st)]
  end.

Definition split_with (fuel : nat) (text : string) (max_tokens : Z)
  : option (list C) :=
  let paragraphs := Py.split Py.newline text in
  final_chunks <$> split_paragraphs fuel max_tokens (SplitState [] [] 0) paragraphs.

End Splitter.

(** [split_text_into_chunks(text, max_tokens, encoding)]; each loop of
    the body may run [fuel] iterations. *)
Definition split_text_into_chunks (fuel : nat) (text : string) (max_tokens : Z)
    (enc : encoding) : option (list string) :=
  split_with enc (decode enc) fuel text max_tokens.

(** The token buffers behind the chunks, before [decode]. *)
Definition split_text_into_token_chunks (fuel : nat) (text : string)
    (max_tokens : Z) (enc : encoding) : option (list (list token)) :=
  split_with enc id fuel text max_tokens.

(** A tokenizer with one token per character, the token being the
    character's code; it instantiates the tokenizer in examples. *)
Definition char_encode (s : string) : list token :=
  (fun c => Z.of_N (N_of_ascii c)) <$> list_ascii_of_string s.
Definition char_decode (l : list token) : string :=
  string_of_list_ascii ((fun t => ascii_of_N (Z.to_N t)) <$> l).
Definition char_encoding : encoding := Encoding char_encode char_decode.

(** ** Extraction Orchestrator *)

(** What [json.loads] returns. *)
#[warnings="-register-all"]
Inductive json :=
| JNull
| JBool (b : bool)
| JInt (n : Z)
| JFloat (lexeme : string)
| JString (s : string)
| JArray (items : list json)
| JObject (members : list (string * json)).

(** A call that returns or raises; an exception is kept as its
    [str(e)], which is all the module reads of it. *)
Inductive result (A : Type) :=
| Ok (a : A)
| Raise (msg : string).
Arguments Ok {A}.
Arguments Raise {A}.

(** The keyword arguments of [client.chat.completions.create]; the
    message list holds one system message, [content]. *)
Record request := Request {
  model : string;
  content : string;
  max_tokens : Z;
  temperature : Z
}.

(** A completion: for each choice, [message.content], which may be
    [None]. *)
Record response := Response { choices : list (option string) }.

(** What the call leaves on the page and on the error stream. *)
Inductive event :=
| StError (msg : string)
| PrintExc (msg : string).

Definition model_name : string := "gpt-4o-mini".
Definition model_max_tokens : Z := 128000.
Definition reserved_response_tokens : Z := 2000.

(** [re.findall(r'\{.*?}', s)]: one pass over [s]. [open] holds the
    text matched so far when a candidate has been opened by a left
    brace; the first right brace closes it, and a line break, which
    [.] does not match, abandons it together with every candidate
    that could have started inside it. *)
Fixpoint findall_from (open : option string) (s : string) : list string :=
  match s with
  | EmptyString => []
  | String c s' =>
      match open with
      | None =>
          if Ascii.eqb c "{" then findall_from (Some "{") s'
          else findall_from None s'
      | Some acc =>
          if Ascii.eqb c "}" then (acc +:+ "}") :: findall_from None s'
          else if Ascii.eqb c Py.newline then findall_from None s'
          else findall_from (Some (acc +:+ String c EmptyString)) s'
      end
  end.

Definition findall_objects (s : string) : list string := findall_from None s.

Section Orchestrator.
(** [tiktoken.get_encoding("cl100k_base")] *)
Variable enc : encoding.
(** [str(columns)], as the f-string of [generate_prompt] renders the
    list of column names. *)
Variable str_columns : list string -> string.
(** [template.format(text=t)]; it raises on a template with a stray
    brace or with a field other than [text]. *)
Variable str_format : string -> string -> result string.
(** [json.loads(x, strict=False)]; [None] when it raises. *)
Variable json_loads : string -> option json.
(** The remote completion service: its state and one call of
    [client.chat.completions.create]. *)
Variable client : Type.
Variable create : client -> request -> result response * client.

Record world := World {
  remote : client;
  console : list event
}.

(** State-passing computations over the service and the console. *)
Definition M (A : Type) : Type := world -> A * world.
#[local] Instance M_ret : MRet M := fun A a w => (a, w).
#[local] Instance M_bind : MBind M :=
  fun A B k m w => let (a, w') := m w in k a w'.

Definition st_error (msg : string) : M unit :=
  fun w => (tt, World (remote w) (console w ++ [StError msg])).
Definition print_exc (msg : string) : M unit :=
  fun w => (tt, World (remote w) (console w ++ [PrintExc msg])).
Definition completions_create (req : request) : M (result response) :=
  fun w => let (r, c) := create (remote w) req in (r, World c (console w)).

Definition generate_prompt (columns : list string) (instructions : string) : string :=
  Py.nl +:+
  "    Extract structured data from the following text. Follow these requirements:" +:+ Py.nl +:+
  "    1. Output only JSON format with a list of objects" +:+ Py.nl +:+
  "    2. Use exactly these column names: " +:+ str_columns columns +:+ Py.nl +:+
  "    3. " +:+ instructions +:+ Py.nl +:+
  "    4. Maintain data types (string, number, date)" +:+ Py.nl +:+
  "    5. Return empty string if information not available" +:+ Py.nl +:+
  "    " +:+ Py.nl +:+
  "    Text content:" +:+ Py.nl +:+
  "    {text}" +:+ Py.nl +:+
  "    " +:+ Py.nl +:+
  "    JSON output:" +:+ Py.nl +:+
  "    ".

(** The loop over the candidates found in one response. *)
Fixpoint parse_candidates (xs : list string) (data : list json) : list json :=
  match xs with
  | [] => data
  | x :: xs' =>
      match json_loads x with
      | Some dict_f => parse_candidates xs' (data ++ [dict_f])
      | None => parse_candidates xs' data
      end
  end.

Definition parse_response (json_str : string) : list json :=
  parse_candidates (findall_objects (Py.replace Py.newline " " json_str)) [].

(** The body of the inner [try], for one chunk. *)
Definition chunk_try (prompt_template chunk : string) : M (result (list json)) :=
  match str_format prompt_template chunk with
  | Raise msg => mret (Raise msg)
  | Ok prompt =>
      r ← completions_create
             (Request model_name prompt reserved_response_tokens 0);
      match r with
      | Raise msg => mret (Raise msg)
      | Ok resp =>
          match choices resp with
          | [] => mret (Raise "list index out of range")
          | None :: _ =>
              mret (Raise "'NoneType' object has no attribute 'replace'")
          | Some json_str :: _ => mret (Ok (parse_response json_str))
          end
      end
  end.

(** [for chunk in text_chunks:] with its [except Exception]. *)
Fixpoint process_chunks (prompt_template : string) (text_chunks : list string)
    (all_data : list json) : M (list json) :=
  match text_chunks with
  | [] => mret all_data
  | chunk :: rest =>
      r ← chunk_try prompt_template chunk;
      match r with
      | Ok data => process_chunks prompt_template rest (all_data ++ data)
      | Raise msg =>
          st_error ("Error processing chunk: " +:+ msg);;
          print_exc msg;;
          process_chunks prompt_template rest all_data
      end
  end.

(** What one pass through the loop body adds to [all_data]: the
    objects parsed from the response, or nothing when the body raised
    (the failure then goes to the console). *)
Definition chunk_records (prompt_template chunk : string) : M (list json) :=
  r ← chunk_try prompt_template chunk;
  match r with
  | Ok data => mret data
  | Raise msg =>
      st_error ("Error processing chunk: " +:+ msg);;
      print_exc msg;;
      mret []
  end.

(** The contribution of each chunk, in chunk order; the world is
    threaded from one chunk to the next as the loop does. *)
Fixpoint contributions (prompt_template : string) (text_chunks : list string)
    (w : world) : list (list json) :=
  match text_chunks with
  | [] => []
  | chunk :: rest =>
      let (data, w') := chunk_records prompt_template chunk w in
      data :: contributions prompt_template rest w'
  end.

(** [if not multiple_rows and all_data: return [all_data[0]]] and
    [return all_data]. *)
Definition select_rows (multiple_rows : bool) (all_data : list json) : list json :=
  match all_data with
  | d :: _ => if negb multiple_rows then [d] else all_data
  | [] => all_data
  end.

(** The part of [extract_data_with_openai] that follows the call of
    the splitter. *)
Definition extract_from_chunks (prompt_template : string) (multiple_rows : bool)
    (text_chunks : list string) : M (list json) :=
  match text_chunks with
  | [] => mret []
  | _ :: _ =>
      all_data ← process_chunks prompt_template text_chunks [];
      mret (select_rows multiple_rows all_data)
  end.

(** [available_tokens], when the static prompt renders. *)
Definition available_tokens (columns : list string) (instructions : string)
  : result Z :=
  match str_format (generate_prompt columns instructions) EmptyString with
  | Raise msg => Raise msg
  | Ok static_prompt =>
      let static_tokens := Z.of_nat (length (encode enc static_prompt)) in
      Ok (model_max_tokens - static_tokens - reserved_response_tokens)
  end.

(** [extract_data_with_openai]. The client is built from [api_key]
    and lives in the world. Of the three outer [except] clauses only
    the last can be entered: nothing outside the inner [try] raises
    an API error or a JSON decoding error. The result is [None] when
    the splitter is still running with the fuel spent. *)
Definition extract_data_with_openai (fuel : nat) (text : string)
    (columns : list string) (instructions api_key : string)
    (multiple_rows : bool) (w : world) : option (list json * world) :=
  if Py.blank text then Some ([], w)
  else
    let prompt_template := generate_prompt columns instructions in
    match available_tokens columns instructions with
    | Raise msg =>
        Some ((st_error ("Error during data extraction: " +:+ msg);;
               print_exc msg;;
               mret []) w)
    | Ok available_tokens =>
        if available_tokens <=? 0 then
          Some ((st_error "Prompt is too long. Reduce columns/instructions length.";;
                 mret []) w)
        else
          text_chunks ← split_text_into_chunks fuel text available_tokens enc;
          Some (extract_from_chunks prompt_template multiple_rows text_chunks w)
    end.

End Orchestrator.

Arguments World {client}.
Arguments remote {client}.
Arguments console {client}.

(** How many iterations the slicing loop needs at most on [text]: one
    more than the longest paragraph has tokens. *)
Definition enough_fuel (enc : encoding) (text : string) : nat :=
  S (foldr Nat.max 0%nat
       ((fun para => length (encode enc para)) <$> Py.split Py.newline text)).

(** The state of the loop when every token buffer appended to
    [chunks] is passed through [emit]. *)
Definition emit_state {C} (emit : list token -> C)
    (st : split_state (list token)) : split_state C :=
  SplitState (emit <$> chunks st) (current_chunk st) (current_token_count st).



(** A token buffer exceeds the budget by at most [extra]. *)
Definition within (max_tokens extra : Z) (c : list token) : Prop :=
  Z.of_nat (length c) <= max_tokens + extra.

(** The count is the length of the buffer, and neither the buffer nor
    an emitted chunk holds more than [max_tokens + 1] tokens. *)
Definition counted (max_tokens : Z) (st : split_state (list token)) : Prop :=
  Z.of_nat (length (current_chunk st)) = current_token_count st /\
  current_token_count st <= max_tokens + 1 /\
  Forall (within max_tokens 1) (chunks st).

(** The consecutive slices of [m] elements of [l], [k] of them. *)
Definition slices {A} (m k : nat) (l : list A) : list (list A) :=
  (fun i => take m (drop (i * m) l)) <$> seq 0 k.

(** ** Definitions that follow the words of the specification *)

(** Single-row mode keeps "the first successfully parsed object of the
    first chunk that produced any parsed object". *)
Fixpoint first_of_first_nonempty (per_chunk : list (list json)) : list json :=
  match per_chunk with
  | [] => []
  | [] :: rest => first_of_first_nonempty rest
  | (d :: _) :: _ => [d]
  end.

(** A "brace-delimited substring, non-greedy": the pattern matches at
    the start of [s] when [s] opens with a left brace that is followed,
    after the shortest run of characters other than a line break, by a
    right brace. *)
Inductive match_at : string -> string -> string -> Prop :=
| MatchAt (body rest : string) :
    Py.contains "}" body = false ->
    Py.contains Py.newline body = false ->
    match_at ("{" +:+ body +:+ "}" +:+ rest) ("{" +:+ body +:+ "}") rest.

(** "Every" such substring, as [findall] scans: from left to right, a
    match is taken where the pattern matches and the scan goes on after
    it; elsewhere the scan moves one character on. *)
Inductive findall_spec : string -> list string -> Prop :=
| FindallEnd : findall_spec EmptyString []
| FindallMatch (s m rest : string) (ms : list string) :
    match_at s m rest -> findall_spec rest ms -> findall_spec s (m :: ms)
| FindallSkip (c : ascii) (s : string) (ms : list string) :
    (forall m rest, ~ match_at (String c s) m rest) ->
    findall_spec s ms -> findall_spec (String c s) ms.

(** The response of the specification's example,
    [Here is the data: {"a": 1} and more text], and the candidate in
    it. *)
Definition example_candidate : string :=
  "{" +:+ String "034" "a" +:+ String "034" ": 1}".
Definition example_response : string :=
  "Here is the data: " +:+ example_candidate +:+ " and more text".

(** ** The parts of a page-range expression, as the code reads them *)

(** What the loop of [parse_page_range] makes of a part: a page
    number or a range. *)
Inductive term :=
| Page (page : Z)
| Range (start end_ : Z).

(** The term the code reads a part as, by the tests of the loop body:
    a part with a hyphen is split at its hyphens and must give exactly
    two pieces that [int] accepts; a part without one must be accepted
    by [int] as a whole. [None] is the [ValueError] of the loop body.
    So a signed number such as [-3], a part such as [1-2-3], and a
    number of more digits than [int] takes are no terms. *)
Definition term_value (part : string) : option term :=
  if Py.contains "-" part then
    match Py.int <$> Py.split "-" part with
    | [Some start; Some end_] => Some (Range start end_)
    | _ => None
    end
  else Page <$> Py.int part.

(** The indices the loop body adds for a term: a range is clamped
    ("start floored to 1, end capped to total_pages"), a page outside
    [1, total_pages] is dropped. *)
Definition term_pages (total_pages : Z) (t : term) : list Z :=
  match t with
  | Page page =>
      if (1 <=? page) && (page <=? total_pages) then [page - 1] else []
  | Range start end_ =>
      Py.range (Z.max 1 start - 1) (Z.min total_pages end_)
  end.

(** ** An environment for running the orchestrator

    Simple stand-ins for the library objects, used to run the model on
    concrete inputs. *)

Module Demo.

Definition quote : ascii := "034"%char.

(** [s * n] *)
Definition repeat_string (n : N) (s : string) : string :=
  N.iter n (String.append s) EmptyString.

(** [str] of a list of names that need no escaping. *)
Definition str_columns (columns : list string) : string :=
  "[" +:+ String.concat ", " ((fun c => "'" +:+ c +:+ "'") <$> columns) +:+ "]".

(** [format] for templates whose only replacement field is [{text}];
    doubled braces stand for a brace, any other brace raises. *)
Fixpoint format_from (fuel : nat) (template text : string) : result string :=
  match fuel with
  | O => Ok EmptyString
  | S fuel' =>
      match template with
      | EmptyString => Ok EmptyString
      | String c r =>
          if Ascii.eqb c "{" then
            if String.prefix "{" r then
              match format_from fuel' (String.substring 1 (String.length r) r) text with
              | Ok out => Ok (String "{" out)
              | Raise msg => Raise msg
              end
            else if String.prefix "text}" r then
              match format_from fuel' (String.substring 5 (String.length r) r) text with
              | Ok out => Ok (text +:+ out)
              | Raise msg => Raise msg
              end
            else Raise "unsupported replacement field"
          else if Ascii.eqb c "}" then
            if String.prefix "}" r then
              match format_from fuel' (String.substring 1 (String.length r) r) text with
              | Ok out => Ok (String "}" out)
              | Raise msg => Raise msg
              end
            else Raise "Single '}' encountered in format string"
          else
            match format_from fuel' r text with
            | Ok out => Ok (String c out)
            | Raise msg => Raise msg
            end
      end
  end.

Definition str_format (template text : string) : result string :=
  format_from (S (String.length template)) template text.

(** A decoder for a fragment of JSON: objects, arrays, strings without
    escapes, integers, [true], [false] and [null]. *)
Definition json_space (c : ascii) : bool :=
  let n := N_of_ascii c in ((n =? 32) || (n =? 9) || (n =? 10) || (n =? 13))%N.

Fixpoint skip_space (s : string) : string :=
  match s with
  | String c s' => if json_space c then skip_space s' else s
  | EmptyString => EmptyString
  end.

(** The characters up to the closing quote, and what follows it. *)
Fixpoint string_body (s : string) : option (string * string) :=
  match s with
  | EmptyString => None
  | String c s' =>
      if Ascii.eqb c quote then Some (EmptyString, s')
      else if Ascii.eqb c "\" then None
      else
        match string_body s' with
        | Some (body, rest) => Some (String c body, rest)
        | None => None
        end
  end.

Fixpoint number_digits (acc : Z) (s : string) : Z * string :=
  match s with
  | String c s' =>
      match Py.digit c with
      | Some d => number_digits (10 * acc + d) s'
      | None => (acc, s)
      end
  | EmptyString => (acc, s)
  end.

Definition integer (s : string) : option (Z * string) :=
  match s with
  | String c s' =>
      match Py.digit c with
      | Some d =>
          let (n, rest) := number_digits 0 s in
          match rest with
          | String c' _ =>
              if Ascii.eqb c' "." || Ascii.eqb c' "e" || Ascii.eqb c' "E"
              then None else Some (n, rest)
          | EmptyString => Some (n, rest)
          end
      | None => None
      end
  | EmptyString => None
  end.

Fixpoint set_member (k : string) (v : json) (members : list (string * json))
  : list (string * json) :=
  match members with
  | [] => [(k, v)]
  | (k', v') :: rest =>
      if String.eqb k k' then (k, v) :: rest else (k', v') :: set_member k v rest
  end.

Fixpoint value (fuel : nat) (s : string) : option (json * string) :=
  match fuel with
  | O => None
  | S fuel' =>
      match skip_space s with
      | String c s' =>
          if Ascii.eqb c "{" then
            match skip_space s' with
            | String c' s'' =>
                if Ascii.eqb c' "}" then Some (JObject [], s'')
                else members fuel' (skip_space s') []
            | EmptyString => None
            end
          else if Ascii.eqb c "[" then
            match skip_space s' with
            | String c' s'' =>
                if Ascii.eqb c' "]" then Some (JArray [], s'')
                else items fuel' (skip_space s') []
            | EmptyString => None
            end
          else if Ascii.eqb c quote then
            match string_body s' with
            | Some (body, rest) => Some (JString body, rest)
            | None => None
            end
          else if Ascii.eqb c "-" then
            match integer s' with
            | Some (n, rest) => Some (JInt (- n), rest)
            | None => None
            end
          else if String.prefix "true" (String c s') then
            Some (JBool true, String.substring 4 (String.length s') (String c s'))
          else if String.prefix "false" (String c s') then
            Some (JBool false, String.substring 5 (String.length s') (String c s'))
          else if String.prefix "null" (String c s') then
            Some (JNull, String.substring 4 (String.length s') (String c s'))
          else
            match integer (String c s') with
            | Some (n, rest) => Some (JInt n, rest)
            | None => None
            end
      | EmptyString => None
      end
  end
with members (fuel : nat) (s : string) (acc : list (string * json))
  : option (json * string) :=
  match fuel with
  | O => None
  | S fuel' =>
      match s with
      | String c s' =>
          if Ascii.eqb c quote then
            match string_body s' with
            | Some (key, rest) =>
                match skip_space rest with
                | String c' rest' =>
                    if Ascii.eqb c' ":" then
                      match value fuel' rest' with
                      | Some (v, rest'') =>
                          match skip_space rest'' with
                          | String c'' r =>
                              if Ascii.eqb c'' "," then
                                members fuel' (skip_space r) (set_member key v acc)
                              else if Ascii.eqb c'' "}" then
                                Some (JObject (set_member key v acc), r)
                              else None
                          | EmptyString => None
                          end
                      | None => None
                      end
                    else None
                | EmptyString => None
                end
            | None => None
            end
          else None
      | EmptyString => None
      end
  end
with items (fuel : nat) (s : string) (acc : list json) : option (json * string) :=
  match fuel with
  | O => None
  | S fuel' =>
      match value fuel' s with
      | Some (v, rest) =>
          match skip_space rest with
          | String c r =>
              if Ascii.eqb c "," then items fuel' r (acc ++ [v])
              else if Ascii.eqb c "]" then Some (JArray (acc ++ [v]), r)
              else None
          | EmptyString => None
          end
      | None => None
      end
  end.

Definition json_loads (s : string) : option json :=
  match value (2 * String.length s + 2) s with
  | Some (v, rest) =>
      match skip_space rest with
      | EmptyString => Some v
      | _ => None
      end
  | None => None
  end.

(** A scripted service: it answers the calls with the results of the
    script, in order, and raises when the script is used up. *)
Definition create (script : list (result response)) (req : request)
  : result response * list (result response) :=
  match script with
  | r :: rest => (r, rest)
  | [] => (Raise "Connection error.", [])
  end.

Definition answer (s : string) : result response := Ok (Response [Some s]).

Definition extract :=
  extract_data_with_openai char_encoding str_columns str_format json_loads _ create.

(** The text [{"a": n}], for a numeral [n]. *)
Definition object_a (n : string) : string :=
  "{" +:+ String quote "a" +:+ String quote ": " +:+ n +:+ "}".

(** Instructions so long that the static prompt leaves no budget. *)
Definition long_instructions : string := repeat_string 125700 "x".

Definition short_text : string := "ab" +:+ Py.nl +:+ "cdefg".

(** A tokenizer in which the character [#] takes [weight] tokens and
    every other character one: with it short instructions can use up
    the context of the model, and a short text is split into several
    chunks. *)
Definition weighted_encode (weight : N) (s : string) : list token :=
  concat ((fun c => if Ascii.eqb c "#" then replicate (N.to_nat weight) 35
                    else [Z.of_N (N_of_ascii c)])
            <$> list_ascii_of_string s).
Definition weighted_encoding (weight : N) : encoding :=
  Encoding (weighted_encode weight) char_decode.

(** Three paragraphs of two characters. *)
Definition three_lines : string := "ab" +:+ Py.nl +:+ "cd" +:+ Py.nl +:+ "ef".

End Demo.

(** ** Text extraction and the form

    [extract_text] and the parts of [main] that handle the column list
    and the uploaded files. *)

(** [str(n)] for a natural number. *)
Fixpoint decimal_go (fuel n : nat) (acc : string) : string :=
  match fuel with
  | O => acc
  | S fuel' =>
      let acc' := String (ascii_of_nat (48 + n mod 10)) acc in
      match (n / 10)%nat with
      | O => acc'
      | S _ => decimal_go fuel' (n / 10) acc'
      end
  end.

Definition decimal (n : nat) : string := decimal_go (S n) n EmptyString.

(** [l[i]] for any integer [i]: a negative index counts from the end;
    [None] stands for [IndexError]. *)
Definition list_index {A} (l : list A) (i : Z) : option A :=
  if i <? 0 then
    if Z.of_nat (length l) + i <? 0 then None
    else l !! Z.to_nat (Z.of_nat (length l) + i)
  else l !! Z.to_nat i.

(** What [page.extract_text(layout=True)] gives for one page: a text,
    [None], or an exception. *)
Abbreviation page := (result (option string)).

(** What [pdfplumber.open(pdf_file)] and [pdf.pages] give: the pages,
    or an exception. *)
Abbreviation pdf_file := (result (list page)).

(** The list comprehension of [extract_text]: for each index, in
    order, the page is looked up and its text extracted. *)
Fixpoint extract_pages (pages : list page) (page_indices : list Z)
  : result (list (option string)) :=
  match page_indices with
  | [] => Ok []
  | i :: rest =>
      match list_index pages i with
      | None => Raise "list index out of range"
      | Some (Raise msg) => Raise msg
      | Some (Ok item) =>
          match extract_pages pages rest with
          | Ok items => Ok (item :: items)
          | Raise msg => Raise msg
          end
      end
  end.

(** ['\n'.join(items)]: the first item that is no string raises a
    [TypeError] that names its position. *)
Fixpoint join_items (position : nat) (items : list (option string))
  : result (list string) :=
  match items with
  | [] => Ok []
  | None :: _ =>
      Raise ("sequence item " +:+ decimal position
             +:+ ": expected str instance, NoneType found")
  | Some item :: rest =>
      match join_items (S position) rest with
      | Ok texts => Ok (item :: texts)
      | Raise msg => Raise msg
      end
  end.

(** [extract_text(pdf_file, page_range_str)]: the value returned and
    what goes to the page. *)
Definition extract_text (pdf_file : result (list page)) (page_range_str : string)
  : option string * list event :=
  match pdf_file with
  | Raise msg => (None, [StError ("Error extracting text: " +:+ msg)])
  | Ok pages =>
      let total_pages := Z.of_nat (length pages) in
      let page_indices := parse_page_range page_range_str total_pages in
      match page_indices with
      | [] => (None, [StError ("Invalid page range: " +:+ page_range_str)])
      | _ :: _ =>
          match extract_pages pages page_indices with
          | Raise msg => (None, [StError ("Error extracting text: " +:+ msg)])
          | Ok items =>
              match join_items 0 items with
              | Raise msg => (None, [StError ("Error extracting text: " +:+ msg)])
              | Ok texts => (Some (String.concat Py.nl texts), [])
              end
          end
      end
  end.

Module Session.

(** The two entries of [st.session_state] that the column form uses;
    [last_new_column] is [None] while the key is missing. *)
Record state := State {
  columns : list string;
  last_new_column : option string
}.

(** [l.remove(x)]: the first occurrence goes. *)
Fixpoint remove_first (x : string) (l : list string) : list string :=
  match l with
  | [] => []
  | y :: l' => if String.eqb y x then l' else y :: remove_first x l'
  end.

(** "Handle column addition": the state after it, and whether
    [st.rerun()] was called. *)
Definition add_column (new_column : string) (add_button : bool) (st : state)
  : state * bool :=
  match new_column with
  | EmptyString => (st, false)
  | String _ _ =>
      if add_button || negb (bool_decide (last_new_column st = Some new_column)) then
        if bool_decide (new_column ∈ columns st) then (st, false)
        else (State (columns st ++ [new_column]) (Some new_column), true)
      else (st, false)
  end.

(** The delete button of the column at position [idx]. *)
Definition delete_column (idx : nat) (st : state) : state * bool :=
  match columns st !! idx with
  | Some column => (State (remove_first column (columns st)) (last_new_column st), true)
  | None => (st, false)
  end.

End Session.

(** [item[key] = value] on what [json.loads] returned: on an object
    the member is replaced where it stands or added at the end;
    anything else raises a [TypeError]. *)
Fixpoint members_set (key : string) (value : json) (members : list (string * json))
  : list (string * json) :=
  match members with
  | [] => [(key, value)]
  | (k, v) :: rest =>
      if String.eqb k key then (key, value) :: rest
      else (k, v) :: members_set key value rest
  end.

Definition setitem (item : json) (key : string) (value : json) : result json :=
  match item with
  | JObject members => Ok (JObject (members_set key value members))
  | _ => Raise "object does not support item assignment"
  end.

(** [item[key]] on an object. *)
Fixpoint members_get (key : string) (members : list (string * json)) : option json :=
  match members with
  | [] => None
  | (k, v) :: rest => if String.eqb k key then Some v else members_get key rest
  end.

Definition getitem (item : json) (key : string) : option json :=
  match item with
  | JObject members => members_get key members
  | _ => None
  end.

(** One uploaded file: its name, its MIME type and what opening it as
    a PDF gives. *)
Record uploaded_file := UploadedFile {
  name : string;
  type : string;
  document : pdf_file
}.

(** What [main] puts on the page while it processes the files. *)
Inductive ui_event :=
| Shown (e : event)
| StWarning (msg : string)
| Progress (numerator denominator : nat)
| DataPreview (rows : list json).
(* [Progress n d] is [progress(n / d)]; [DataPreview] is the preview
   and the download of the frame built from the rows. *)

Section Main.
Variable enc : encoding.
Variable str_columns : list string -> string.
Variable str_format : string -> string -> result string.
Variable json_loads : string -> option json.
Variable client : Type.
Variable create : client -> request -> result response * client.

(** The service and the page. *)
Record ui_world := UiWorld {
  service : client;
  screen : list ui_event
}.

Definition show (events : list ui_event) (u : ui_world) : ui_world :=
  UiWorld (service u) (screen u ++ events).

(** [for item in data: item["source_file"] = uploaded_file.name] *)
Fixpoint tag_items (file_name : string) (data : list json) : result (list json) :=
  match data with
  | [] => Ok []
  | item :: rest =>
      match setitem item "source_file" (JString file_name) with
      | Raise msg => Raise msg
      | Ok item' =>
          match tag_items file_name rest with
          | Ok rest' => Ok (item' :: rest')
          | Raise msg => Raise msg
          end
      end
  end.

(** The loop over the uploaded files; [file_idx] counts the files seen
    and [total] is [len(uploaded_files)]. [None]: the fuel is spent;
    [Raise]: an exception leaves [main]. *)
Fixpoint process_files (fuel : nat) (api_key : string) (columns : list string)
    (instructions page_range : string) (multiple_rows : bool)
    (total file_idx : nat) (files : list uploaded_file) (all_data : list json)
    (u : ui_world) : option (result (list json) * ui_world) :=
  match files with
  | [] => Some (Ok all_data, u)
  | uploaded_file :: rest =>
      let next := process_files fuel api_key columns instructions page_range
                    multiple_rows total (S file_idx) rest in
      if negb (String.eqb (type uploaded_file) "application/pdf") then
        next all_data
             (show [Shown (StError "Only PDF files are currently supported")] u)
      else
        let (text, events) := extract_text (document uploaded_file) page_range in
        let u := show (Shown <$> events) u in
        match text with
        | None | Some EmptyString => next all_data u
        | Some text =>
            match extract_data_with_openai enc str_columns str_format json_loads
                    client create fuel text columns instructions api_key
                    multiple_rows (World (service u) []) with
            | None => None
            | Some (data, w) =>
                let u := UiWorld (remote w) (screen u ++ (Shown <$> console w)) in
                match tag_items (name uploaded_file) data with
                | Raise msg => Some (Raise msg, u)
                | Ok tagged =>
                    next (all_data ++ tagged)
                         (show [Progress (S file_idx) total] u)
                end
            end
        end
  end.

(** The body of [if uploaded_files and process_button:] *)
Definition process_button_pressed (fuel : nat) (api_key : string)
    (columns : list string) (instructions page_range : string)
    (multiple_rows : bool) (uploaded_files : list uploaded_file) (u : ui_world)
  : option (result (list json) * ui_world) :=
  match api_key with
  | EmptyString => Some (Ok [], show [Shown (StError "Please enter your OpenAI API key")] u)
  | String _ _ =>
      match columns with
      | [] => Some (Ok [], show [Shown (StError "Please add at least one column")] u)
      | _ :: _ =>
          match process_files fuel api_key columns instructions page_range
                  multiple_rows (length uploaded_files) 0 uploaded_files []
                  (show [Progress 0 1] u) with
          | None => None
          | Some (Raise msg, u') => Some (Raise msg, u')
          | Some (Ok all_data, u') =>
              match all_data with
              | [] => Some (Ok [],
                            show [StWarning "No data extracted from the documents"] u')
              | _ :: _ => Some (Ok all_data, show [DataPreview all_data] u')
              end
          end
      end
  end.

End Main.

Arguments UiWorld {client}.
Arguments service {client}.
Arguments screen {client}.

(** A service that also keeps the requests it was sent, in order. *)
Definition recording {client : Type}
    (create : client -> request -> result response * client)
    (c : client * list request) (req : request)
  : result response * (client * list request) :=
  let (r, c') := create c.1 req in (r, (c', c.2 ++ [req])).

(** The request the loop sends for a chunk, when its prompt renders. *)
Definition chunk_request (str_format : string -> string -> result string)
    (prompt_template chunk : string) : option request :=
  match str_format prompt_template chunk with
  | Ok prompt => Some (Request model_name prompt reserved_response_tokens 0)
  | Raise _ => None
  end.

(** A page number is covered by a term. *)
Definition covers (t : term) (number : Z) : Prop :=
  match t with
  | Page page => number = page
  | Range start end_ => start <= number <= end_
  end.

(** The tokens of the paragraphs, each followed by the separator when
    its flag is set. *)
Fixpoint paragraph_tokens (enc : encoding) (paragraphs : list string)
    (separated : list bool) : list token :=
  match paragraphs, separated with
  | para :: paragraphs', flag :: separated' =>
      encode enc para ++ (if flag then encode enc Py.nl else [])
      ++ paragraph_tokens enc paragraphs' separated'
  | _, _ => []
  end.

(** The text is the candidates, in order, with text between them. *)
Fixpoint weave (gaps : list string) (ms : list string) : string :=
  match gaps, ms with
  | gap :: gaps', m :: ms' => gap +:+ m +:+ weave gaps' ms'
  | gap :: _, [] => gap
  | [], _ => EmptyString
  end.

(** The budget a text needs to go into one chunk: the counts of its
    paragraphs, plus one per paragraph but the last. *)
Definition budget_needed (enc : encoding) (paragraphs : list string) : Z :=
  foldr (fun para acc => Z.of_nat (length (encode enc para)) + 1 + acc) 0 paragraphs - 1.

(** What one file comes to, from the state of the service it finds:
    nothing (it is passed over), records with the service after them,
    an exception that leaves [main], or no result within the fuel. *)
Inductive file_result (client : Type) :=
| FileSkipped
| FileDone (tagged : list json) (c : client)
| FileCrashed (msg : string) (c : client)
| FileOutOfFuel.
Arguments FileSkipped {client}.
Arguments FileDone {client}.
Arguments FileCrashed {client}.
Arguments FileOutOfFuel {client}.

Definition file_result_of (enc : encoding) (str_columns : list string -> string)
    (str_format : string -> string -> result string)
    (json_loads : string -> option json) {client : Type}
    (create : client -> request -> result response * client)
    (fuel : nat) (api_key : string) (columns : list string)
    (instructions page_range : string) (multiple_rows : bool)
    (uploaded_file : uploaded_file) (c : client) : file_result client :=
  if negb (String.eqb (type uploaded_file) "application/pdf") then FileSkipped
  else
    match (extract_text (document uploaded_file) page_range).1 with
    | None | Some EmptyString => FileSkipped
    | Some text =>
        match extract_data_with_openai enc str_columns str_format json_loads
                client create fuel text columns instructions api_key
                multiple_rows (World c []) with
        | None => FileOutOfFuel
        | Some (data, w) =>
            match tag_items (name uploaded_file) data with
            | Raise msg => FileCrashed msg (remote w)
            | Ok tagged => FileDone tagged (remote w)
            end
        end
    end.

(** The result of the loop over the files and the service it leaves,
    without the page. *)
Definition outcome {client : Type}
    (r : option (result (list json) * ui_world client))
  : option (result (list json) * client) :=
  match r with
  | Some (res, u) => Some (res, service u)
  | None => None
  end.

(** * Properties *)

(** ** Python primitives *)

Lemma split_no_sep sep s : Py.contains sep s = false -> Py.split sep s = [s].
Proof.
  induction s as [|c s IH]; simpl; [done|].
  intros H. apply orb_false_iff in H as [Hc Hs].
  rewrite Hc, (IH Hs). done.
Qed.

Lemma split_nonempty sep s : Py.split sep s <> [].
Proof.
  destruct s as [|c s]; simpl; [done|].
  destruct (Ascii.eqb c sep); [done|]. by destruct (Py.split sep s).
Qed.

Lemma slice_to_take {A} (l : list A) (m : Z) :
  1 <= m ->
  Py.slice_to l (Z.min (Z.of_nat (length l)) m) = take (Z.to_nat m) l.
Proof.
  intros Hm. unfold Py.slice_to.
  destruct (Z.ltb_spec (Z.min (Z.of_nat (length l)) m) 0) as [?|_]; [lia|].
  destruct (Z.le_ge_cases (Z.of_nat (length l)) m) as [Hle|Hle].
  - rewrite Z.min_l, Nat2Z.id by done.
    rewrite !take_ge; [done| lia | lia].
  - by rewrite Z.min_r.
Qed.

Lemma slice_from_drop {A} (l : list A) (m : Z) :
  1 <= m ->
  Py.slice_from l (Z.min (Z.of_nat (length l)) m) = drop (Z.to_nat m) l.
Proof.
  intros Hm. unfold Py.slice_from.
  destruct (Z.ltb_spec (Z.min (Z.of_nat (length l)) m) 0) as [?|_]; [lia|].
  destruct (Z.le_ge_cases (Z.of_nat (length l)) m) as [Hle|Hle].
  - rewrite Z.min_l, Nat2Z.id by done.
    rewrite !drop_ge; [done| lia | lia].
  - by rewrite Z.min_r.
Qed.

(** With a budget below one the slice taken off a non-empty list leaves
    a non-empty list. *)
Lemma slice_from_stuck {A} (l : list A) (m : Z) :
  m <= 0 -> l <> [] ->
  Py.slice_from l (Z.min (Z.of_nat (length l)) m) <> [].
Proof.
  intros Hm Hl. assert (0 < length l)%nat by (destruct l; simpl; [done|lia]).
  rewrite Z.min_r by lia. unfold Py.slice_from.
  intros Hnil. apply (f_equal length) in Hnil. simpl in Hnil.
  destruct (Z.ltb_spec m 0); rewrite length_drop in Hnil; lia.
Qed.

(** A string is blank exactly when each of its characters is white
    space. *)
Lemma contains_cons (c d : ascii) (s : string) :
  Py.contains c (String d s) = true <-> d = c \/ Py.contains c s = true.
Proof. simpl. rewrite orb_true_iff, Ascii.eqb_eq. done. Qed.

Lemma rstrip_empty (s : string) :
  Py.rstrip s = EmptyString
  <-> forall c, Py.contains c s = true -> Py.isspace c = true.
Proof.
  induction s as [|d s IH]; [done|]. cbn [Py.rstrip]. split.
  - intros E c [->|Hc]%contains_cons.
    + destruct (Py.rstrip s); [by destruct (Py.isspace c)|done].
    + apply IH; [|done]. by destruct (Py.rstrip s).
  - intros Hall.
    assert (Py.rstrip s = EmptyString) as ->.
    { apply IH. intros c Hc. apply Hall, contains_cons. by right. }
    rewrite (Hall d); [done|]. apply contains_cons. by left.
Qed.

Lemma lstrip_spaces (s : string) :
  (forall c, Py.contains c (Py.lstrip s) = true -> Py.isspace c = true)
  <-> forall c, Py.contains c s = true -> Py.isspace c = true.
Proof.
  induction s as [|d s IH]; [done|]. cbn [Py.lstrip].
  destruct (Py.isspace d) eqn:Hd; [|done].
  rewrite IH. split.
  - intros Hall c [->|Hc]%contains_cons; [done|by apply Hall].
  - intros Hall c Hc. apply Hall, contains_cons. by right.
Qed.

Lemma blank_all_space (s : string) :
  Py.blank s = true <-> forall c, Py.contains c s = true -> Py.isspace c = true.
Proof.
  rewrite <- lstrip_spaces, <- rstrip_empty. unfold Py.blank, Py.strip.
  by destruct (Py.rstrip (Py.lstrip s)).
Qed.

(** ** The slicing loop *)

Section SliceLoop.
Context {C : Type} (emit : list token -> C).

Lemma slices_step {A} (m n : nat) (l : list A) :
  slices m (S n) l = take m l :: slices m n (drop m l).
Proof.
  unfold slices. rewrite <- cons_seq. simpl. f_equal.
  rewrite <- fmap_S_seq, <- list_fmap_compose.
  apply list_fmap_ext. intros _ i _. simpl.
  rewrite drop_drop. replace (m + i * m)%nat with (S i * m)%nat by lia. done.
Qed.

Lemma ceil_div_step (n m : nat) :
  (0 < n -> 0 < m -> (n + m - 1) / m = S ((n - m + m - 1) / m))%nat.
Proof.
  intros Hn Hm. destruct (Nat.le_gt_cases n m) as [Hle|Hgt].
  - replace (n - m + m - 1)%nat with (m - 1)%nat by lia.
    rewrite (Nat.div_small (m - 1)) by lia.
    replace (n + m - 1)%nat with ((n - 1) + 1 * m)%nat by lia.
    rewrite Nat.div_add, Nat.div_small by lia. done.
  - replace (n + m - 1)%nat with ((n - m + m - 1) + 1 * m)%nat by lia.
    rewrite Nat.div_add by lia. lia.
Qed.

Lemma slice_loop_S (fuel : nat) (m : Z) (tokens : list token) (cs : list C) :
  tokens <> [] ->
  slice_loop emit (S fuel) m tokens cs
  = let take := Z.min (Z.of_nat (length tokens)) m in
    slice_loop emit fuel m (Py.slice_from tokens take)
               (cs ++ [emit (Py.slice_to tokens take)]).
Proof. by destruct tokens. Qed.

(** With a budget of at least one and more fuel than tokens, the loop
    ends and appends the slices of the paragraph. *)
Lemma slice_loop_slices (fuel : nat) (m : Z) (tokens : list token) (cs : list C) :
  1 <= m -> (length tokens < fuel)%nat ->
  slice_loop emit fuel m tokens cs
  = Some (cs ++ (emit <$> slices (Z.to_nat m)
                   ((length tokens + Z.to_nat m - 1) / Z.to_nat m) tokens)).
Proof.
  intros Hm. revert tokens cs.
  induction fuel as [|fuel IH]; intros tokens cs Hlen; [lia|].
  destruct (decide (tokens = [])) as [->|Hne].
  - simpl. rewrite Nat.div_small by lia. simpl. by rewrite app_nil_r.
  - assert (0 < length tokens)%nat by (destruct tokens; simpl; [done|lia]).
    rewrite slice_loop_S by done. cbv zeta.
    rewrite slice_to_take, slice_from_drop by done.
    rewrite IH by (rewrite length_drop; lia).
    rewrite length_drop, (ceil_div_step (length tokens)) by lia.
    rewrite slices_step, fmap_cons, <- app_assoc. done.
Qed.

(** With a budget below one the loop never ends on a non-empty
    list. *)
Lemma slice_loop_diverges (fuel : nat) (m : Z) (tokens : list token) (cs : list C) :
  m <= 0 -> tokens <> [] -> slice_loop emit fuel m tokens cs = None.
Proof.
  intros Hm. revert tokens cs.
  induction fuel as [|fuel IH]; intros tokens cs Hne; [done|].
  rewrite slice_loop_S by done. apply IH. by apply slice_from_stuck.
Qed.

End SliceLoop.

(** ** The splitter *)

Section SplitterFacts.
Variable enc : encoding.

(** *** Chunks are the decoded token buffers *)

Section Emit.
Context {C : Type} (emit : list token -> C).

Lemma slice_loop_emit fuel m tokens (cs : list (list token)) :
    slice_loop emit fuel m tokens (emit <$> cs)
    = fmap (M:=option) (fmap (M:=list) emit) $ slice_loop id fuel m tokens cs.
  Proof.
    revert tokens cs. induction fuel as [|fuel IH]; intros tokens cs; [done|].
    destruct (decide (tokens = [])) as [->|Hne]; [done|].
    rewrite !slice_loop_S by done. cbv zeta.
    rewrite <- IH, fmap_app. done.
  Qed.

Lemma split_paragraph_emit fuel m st para :
    split_paragraph enc emit fuel m (emit_state emit st) para
    = emit_state emit <$> split_paragraph enc id fuel m st para.
  Proof.
    unfold split_paragraph. destruct st as [cs cc cnt]; simpl.
    case_match; [|done].
    destruct cc as [|t cc]; simpl.
    - case_match; [|done].
      rewrite slice_loop_emit. by destruct (slice_loop id _ _ _ _).
    - replace ((emit <$> cs) ++ [emit (t :: cc)])
        with (emit <$> (cs ++ [t :: cc])) by by rewrite fmap_app.
      case_match; [|done].
      rewrite slice_loop_emit. by destruct (slice_loop id _ _ _ _).
  Qed.

Lemma split_paragraphs_emit fuel m st paragraphs :
    split_paragraphs enc emit fuel m (emit_state emit st) paragraphs
    = emit_state emit <$> split_paragraphs enc id fuel m st paragraphs.
  Proof.
    revert st. induction paragraphs as [|para rest IH]; intros st; [done|].
    simpl. rewrite split_paragraph_emit.
    destruct (split_paragraph enc id fuel m st para) as [st'|]; simpl; [|done].
    apply IH.
  Qed.

Lemma final_chunks_emit st :
    final_chunks emit (emit_state emit st) = emit <$> final_chunks id st.
  Proof.
    unfold final_chunks. destruct st as [cs [|t cc] cnt]; simpl; [done|].
    by rewrite fmap_app.
  Qed.

Lemma split_with_emit fuel text m :
    split_with enc emit fuel text m
    = fmap (M:=option) (fmap (M:=list) emit) $ split_with enc id fuel text m.
  Proof.
    unfold split_with.
    change (SplitState (C:=C) [] [] 0) with (emit_state emit (SplitState [] [] 0)).
    rewrite split_paragraphs_emit.
    destruct (split_paragraphs enc id fuel m _ _) as [st|]; simpl; [|done].
    by rewrite final_chunks_emit.
  Qed.
End Emit.

Lemma split_chunks_decode fuel text m :
  split_text_into_chunks fuel text m enc
  = fmap (M:=option) (fmap (M:=list) (decode enc)) $ split_text_into_token_chunks fuel text m enc.
Proof. apply split_with_emit. Qed.

(** *** Enough fuel *)

Lemma split_paragraph_is_Some {C} (emit : list token -> C) fuel m st para :
  1 <= m -> (length (encode enc para) < fuel)%nat ->
  is_Some (split_paragraph enc emit fuel m st para).
Proof.
  intros Hm Hfuel. unfold split_paragraph.
  repeat case_match; try done;
    rewrite slice_loop_slices by done; done.
Qed.

Lemma split_paragraphs_is_Some {C} (emit : list token -> C) fuel m st paragraphs :
  1 <= m ->
  Forall (fun para => (length (encode enc para) < fuel)%nat) paragraphs ->
  is_Some (split_paragraphs enc emit fuel m st paragraphs).
Proof.
  intros Hm Hall. revert st.
  induction Hall as [|para rest Hpara _ IH]; intros st; [done|].
  simpl. destruct (split_paragraph_is_Some emit fuel m st para Hm Hpara) as [st' ->].
  apply IH.
Qed.

Lemma foldr_max_le (l : list nat) (x : nat) :
  x ∈ l -> (x <= foldr Nat.max 0 l)%nat.
Proof.
  induction 1 as [x l|x y l _ IH]; simpl; lia.
Qed.

Lemma enough_fuel_paragraphs fuel text :
  (enough_fuel enc text <= fuel)%nat ->
  Forall (fun para => (length (encode enc para) < fuel)%nat)
         (Py.split Py.newline text).
Proof.
  intros Hfuel. apply Forall_forall. intros para Hin.
  assert (length (encode enc para)
          <= foldr Nat.max 0
               ((fun para => length (encode enc para)) <$> Py.split Py.newline text))%nat.
  { apply foldr_max_le, list_elem_of_fmap. eauto. }
  unfold enough_fuel in Hfuel. lia.
Qed.

Lemma split_with_is_Some {C} (emit : list token -> C) fuel text m :
  1 <= m -> (enough_fuel enc text <= fuel)%nat ->
  is_Some (split_with enc emit fuel text m).
Proof.
  intros Hm Hfuel. unfold split_with.
  destruct (split_paragraphs_is_Some emit fuel m (SplitState [] [] 0)
              (Py.split Py.newline text) Hm) as [st ->]; [|done].
  by apply enough_fuel_paragraphs.
Qed.

(** *** A text of one paragraph *)

Lemma split_with_oversize {C} (emit : list token -> C) fuel text m :
  1 <= m -> Py.contains Py.newline text = false ->
  m < Z.of_nat (length (encode enc text)) ->
  (length (encode enc text) < fuel)%nat ->
  split_with enc emit fuel text m
  = Some (emit <$> slices (Z.to_nat m)
            ((length (encode enc text) + Z.to_nat m - 1) / Z.to_nat m)
            (encode enc text)).
Proof.
  intros Hm Hnl Hbig Hfuel. unfold split_with.
  rewrite (split_no_sep _ _ Hnl). simpl. unfold split_paragraph. simpl.
  rewrite !Z.add_0_l.
  destruct (Z.ltb_spec m (Z.of_nat (length (encode enc text)))); [|lia].
  rewrite slice_loop_slices by done. done.
Qed.

Lemma split_with_exact_fit {C} (emit : list token -> C) fuel text :
  Py.contains Py.newline text = false ->
  encode enc Py.nl <> [] ->
  split_with enc emit fuel text (Z.of_nat (length (encode enc text)))
  = Some [emit (encode enc text ++ encode enc Py.nl)].
Proof.
  intros Hnl Hsep. unfold split_with.
  rewrite (split_no_sep _ _ Hnl). simpl. unfold split_paragraph. simpl.
  rewrite !Z.add_0_l.
  rewrite Z.ltb_irrefl. simpl. unfold final_chunks. simpl.
  destruct (encode enc text ++ encode enc Py.nl) eqn:Happ; [|done].
  by apply app_eq_nil in Happ as [_ ?].
Qed.

Lemma split_with_zero_budget {C} (emit : list token -> C) fuel text :
  Py.contains Py.newline text = false ->
  encode enc text <> [] ->
  split_with enc emit fuel text 0 = None.
Proof.
  intros Hnl Hne. unfold split_with.
  rewrite (split_no_sep _ _ Hnl). simpl. unfold split_paragraph. simpl.
  rewrite !Z.add_0_l.
  assert (0 < length (encode enc text))%nat
    by (destruct (encode enc text); simpl; [done|lia]).
  destruct (Z.ltb_spec 0 (Z.of_nat (length (encode enc text)))); [|lia].
  rewrite slice_loop_diverges by done. done.
Qed.

End SplitterFacts.

(** *** Slices *)

Lemma length_slices {A} (m k : nat) (l : list A) : length (slices m k l) = k.
Proof. unfold slices. by rewrite length_fmap, length_seq. Qed.

Lemma lookup_slices {A} (m k i : nat) (l : list A) :
  (i < k)%nat -> slices m k l !! i = Some (take m (drop (i * m) l)).
Proof.
  intros Hi. unfold slices. rewrite list_lookup_fmap, lookup_seq_lt by done. done.
Qed.

Lemma concat_slices {A} (m k : nat) (l : list A) :
  (length l <= k * m)%nat -> concat (slices m k l) = l.
Proof.
  revert l. induction k as [|k IH]; intros l Hlen.
  - destruct l; simpl in *; [done|lia].
  - rewrite slices_step. simpl. rewrite IH.
    + apply take_drop.
    + rewrite length_drop. lia.
Qed.

Lemma ceil_div_cover (n m : nat) :
  (0 < m -> n <= (n + m - 1) / m * m)%nat.
Proof.
  intros Hm. pose proof (Nat.div_mod_eq (n + m - 1) m) as Hdm.
  pose proof (Nat.mod_upper_bound (n + m - 1) m). nia.
Qed.

Lemma ceil_div_tight (n m : nat) :
  (0 < m -> 0 < n -> ((n + m - 1) / m - 1) * m < n)%nat.
Proof.
  intros Hm Hn. pose proof (Nat.div_mod_eq (n + m - 1) m) as Hdm.
  pose proof (Nat.mod_upper_bound (n + m - 1) m). nia.
Qed.

Lemma ceil_div_Z (n : nat) (m : Z) :
  1 <= m ->
  Z.of_nat ((n + Z.to_nat m - 1) / Z.to_nat m) = (Z.of_nat n + m - 1) / m.
Proof.
  intros Hm. rewrite Nat2Z.inj_div. f_equal; lia.
Qed.

(** C9: for [max_tokens >= 1], a text of a single paragraph whose token
    count [n] exceeds [max_tokens] is split into [ceil(n / max_tokens)]
    chunks, in order: chunk [i] is decoded from the [max_tokens]
    consecutive tokens that start at position [i * max_tokens], so every
    chunk but the last holds exactly [max_tokens] tokens and the last
    holds the remainder. *)
Theorem oversize_paragraph_is_sliced (enc : encoding) (text : string)
    (max_tokens : Z) (fuel : nat) :
  1 <= max_tokens ->
  Py.contains Py.newline text = false ->
  max_tokens < Z.of_nat (length (encode enc text)) ->
  (length (encode enc text) < fuel)%nat ->
  exists tcs : list (list token),
    split_text_into_token_chunks fuel text max_tokens enc = Some tcs /\
    split_text_into_chunks fuel text max_tokens enc = Some (decode enc <$> tcs) /\
    Z.of_nat (length tcs)
    = (Z.of_nat (length (encode enc text)) + max_tokens - 1) / max_tokens /\
    concat tcs = encode enc text /\
    (forall i, (i < length tcs)%nat ->
       tcs !! i = Some (take (Z.to_nat max_tokens)
                          (drop (i * Z.to_nat max_tokens) (encode enc text)))) /\
    (forall i c, (S i < length tcs)%nat -> tcs !! i = Some c ->
       Z.of_nat (length c) = max_tokens) /\
    (forall c, last tcs = Some c -> 1 <= Z.of_nat (length c) <= max_tokens).
Proof.
  intros Hm Hnl Hbig Hfuel.
  set (tokens := encode enc text) in *.
  set (m := Z.to_nat max_tokens).
  set (k := ((length tokens + m - 1) / m)%nat).
  assert (0 < m)%nat as Hm' by lia.
  assert (0 < length tokens)%nat as Hn by lia.
  pose proof (ceil_div_cover (length tokens) m Hm') as Hcover.
  pose proof (ceil_div_tight (length tokens) m Hm' Hn) as Htight.
  fold k in Hcover, Htight.
  exists (slices m k tokens). repeat split.
  - unfold split_text_into_token_chunks.
    rewrite (split_with_oversize enc id fuel text max_tokens) by done.
    by rewrite list_fmap_id.
  - unfold split_text_into_chunks.
    by rewrite (split_with_oversize enc (decode enc) fuel text max_tokens).
  - rewrite length_slices. apply ceil_div_Z. done.
  - by apply concat_slices.
  - intros i Hi. rewrite length_slices in Hi. by apply lookup_slices.
  - intros i c Hi Hc. rewrite length_slices in Hi.
    rewrite lookup_slices in Hc by lia. injection Hc as <-.
    rewrite length_take, length_drop. nia.
  - rewrite last_lookup, length_slices in H.
    assert (0 < k)%nat by nia.
    rewrite lookup_slices in H by lia. injection H as <-.
    rewrite length_take, length_drop.
    replace (Nat.pred k) with (k - 1)%nat by lia. lia.
  - rewrite last_lookup, length_slices in H.
    assert (0 < k)%nat by nia.
    rewrite lookup_slices in H by lia. injection H as <-.
    rewrite length_take. lia.
Qed.

Lemma oversize_paragraph_is_sliced_witness :
  exists tcs : list (list token),
    split_text_into_token_chunks 8 "abcdefg" 3 char_encoding = Some tcs /\
    split_text_into_chunks 8 "abcdefg" 3 char_encoding
    = Some (decode char_encoding <$> tcs) /\
    Z.of_nat (length tcs) = (7 + 3 - 1) / 3 /\
    tcs = [[97; 98; 99]; [100; 101; 102]; [103]].
Proof.
  destruct (oversize_paragraph_is_sliced char_encoding "abcdefg" 3 8)
    as (tcs & Htok & Hstr & Hlen & Hrest); [lia | reflexivity | simpl; lia | simpl; lia |].
  exists tcs. repeat split; [exact Htok | exact Hstr | exact Hlen |].
  vm_compute in Htok. congruence.
Defined.

(** C1: the code does not keep every chunk within the budget. A
    paragraph that fills the buffer exactly is appended together with
    the separator token, which the test against [max_tokens] does not
    count: for a text of one paragraph of exactly [max_tokens] tokens
    the only chunk emitted is decoded from [max_tokens + 1] tokens. *)
Theorem exact_fit_paragraph_exceeds_budget (enc : encoding) (text : string)
    (fuel : nat) :
  Py.contains Py.newline text = false ->
  (0 < length (encode enc text))%nat ->
  length (encode enc Py.nl) = 1%nat ->
  let max_tokens := Z.of_nat (length (encode enc text)) in
  1 <= max_tokens /\
  split_text_into_token_chunks fuel text max_tokens enc
  = Some [encode enc text ++ encode enc Py.nl] /\
  split_text_into_chunks fuel text max_tokens enc
  = Some [decode enc (encode enc text ++ encode enc Py.nl)] /\
  Z.of_nat (length (encode enc text ++ encode enc Py.nl)) = max_tokens + 1.
Proof.
  intros Hnl Hpos Hsep max_tokens.
  assert (encode enc Py.nl <> []) as Hne by (intros E; rewrite E in Hsep; done).
  repeat split.
  - unfold max_tokens. lia.
  - apply (split_with_exact_fit enc id); done.
  - apply (split_with_exact_fit enc (decode enc)); done.
  - rewrite length_app, Hsep. unfold max_tokens. lia.
Qed.

Lemma exact_fit_paragraph_exceeds_budget_witness :
  split_text_into_token_chunks 0 "a" 1 char_encoding = Some [[97; 10]] /\
  split_text_into_chunks 0 "a" 1 char_encoding = Some ["a" +:+ Py.nl].
Proof.
  destruct (exact_fit_paragraph_exceeds_budget char_encoding "a" 0)
    as (_ & Htok & Hstr & _); [reflexivity | simpl; lia | reflexivity |].
  split; [exact Htok | exact Hstr].
Defined.

(** ** The page-range parser *)

Lemma elem_of_sorted_set (x : Z) (l : list Z) : x ∈ Py.sorted_set l <-> x ∈ l.
Proof.
  unfold Py.sorted_set. rewrite merge_sort_Permutation, elem_of_elements.
  apply elem_of_list_to_set.
Qed.

Lemma sorted_set_NoDup (l : list Z) : NoDup (Py.sorted_set l).
Proof.
  unfold Py.sorted_set. rewrite merge_sort_Permutation. apply NoDup_elements.
Qed.

Lemma sorted_set_sorted (l : list Z) : StronglySorted Z.le (Py.sorted_set l).
Proof. unfold Py.sorted_set. apply StronglySorted_merge_sort; apply _. Qed.

(** A sorted list without duplicates is strictly ascending. *)
Lemma sorted_NoDup_strict (l : list Z) :
  StronglySorted Z.le l -> NoDup l -> StronglySorted Z.lt l.
Proof.
  induction 1 as [|x l Hl IH Hx]; intros Hnd; [constructor|].
  apply NoDup_cons in Hnd as [Hnotin Hnd]. constructor; [by apply IH|].
  apply Forall_forall. intros y Hy.
  rewrite Forall_forall in Hx. specialize (Hx y Hy).
  assert (x <> y) by (intros ->; done). lia.
Qed.

Lemma range_strict (a b : Z) : StronglySorted Z.lt (Py.range a b).
Proof.
  unfold Py.range. remember (Z.to_nat (b - a)) as n eqn:Hn.
  revert a Hn. induction n as [|n IH]; intros a Hn.
  - rewrite seqZ_nil by lia. constructor.
  - rewrite seqZ_cons by lia. constructor.
    + replace (Z.pred (b - a)) with (b - Z.succ a) by lia. apply IH. lia.
    + apply Forall_forall. intros y Hy. apply elem_of_seqZ in Hy. lia.
Qed.

Lemma strict_sorted_le (l : list Z) : StronglySorted Z.lt l -> StronglySorted Z.le l.
Proof.
  induction 1 as [|x l Hl IH Hx]; constructor; [done|].
  eapply Forall_impl; [exact Hx|]. simpl. lia.
Qed.

Lemma strict_sorted_NoDup (l : list Z) : StronglySorted Z.lt l -> NoDup l.
Proof.
  induction 1 as [|x l Hl IH Hx]; constructor; [|done].
  intros Hin. rewrite Forall_forall in Hx. specialize (Hx x Hin). lia.
Qed.

Lemma elem_of_concat {A} (x : A) (ls : list (list A)) :
  x ∈ concat ls <-> exists l, x ∈ l /\ l ∈ ls.
Proof.
  rewrite list_elem_of_In, in_concat. split.
  - intros (l & Hl & Hx). exists l. by rewrite !list_elem_of_In.
  - intros (l & Hx & Hl). exists l. by rewrite <- !list_elem_of_In.
Qed.

(** One pass through the loop body, in terms of the part's term. *)
Lemma parse_parts_cons (total_pages : Z) (part : string) (parts : list string)
    (pages : list Z) :
  parse_parts total_pages (part :: parts) pages
  = match term_value part with
    | Some t => parse_parts total_pages parts (pages ++ term_pages total_pages t)
    | None => None
    end.
Proof.
  cbn [parse_parts]. unfold term_value.
  destruct (Py.contains "-" part).
  - by destruct (Py.int <$> Py.split "-" part) as [|[a|] [|[b|] [|? ?]]].
  - destruct (Py.int part) as [page|]; simpl; [|done].
    destruct ((1 <=? page) && (page <=? total_pages)); [done|].
    by rewrite app_nil_r.
Qed.

(** The loop computes the terms of the parts one by one and fails at
    the first part that is no term. *)
Lemma parse_parts_terms (total_pages : Z) (parts : list string) (pages : list Z) :
  parse_parts total_pages parts pages
  = ts ← mapM term_value parts;
    Some (pages ++ concat (term_pages total_pages <$> ts)).
Proof.
  revert pages. induction parts as [|part parts IH]; intros pages.
  - simpl. by rewrite app_nil_r.
  - rewrite parse_parts_cons. cbn [mapM].
    destruct (term_value part) as [t|]; simpl; [|done].
    rewrite IH. destruct (mapM term_value parts); simpl; [|done].
    by rewrite app_assoc.
Qed.

Lemma term_pages_in_range (total_pages : Z) (t : term) (x : Z) :
  x ∈ term_pages total_pages t -> 0 <= x < total_pages.
Proof.
  destruct t as [page|a b]; simpl.
  - destruct (Z.leb_spec 1 page), (Z.leb_spec page total_pages); simpl;
      intros Hx; try (by apply elem_of_nil in Hx).
    apply list_elem_of_singleton in Hx. lia.
  - unfold Py.range. rewrite elem_of_seqZ. lia.
Qed.

Lemma parse_page_range_terms (s : string) (total_pages : Z) :
  Py.blank s = false ->
  parse_page_range s total_pages
  = match mapM term_value (Py.split "," s) with
    | Some ts => Py.sorted_set (concat (term_pages total_pages <$> ts))
    | None => []
    end.
Proof.
  intros Hb. unfold parse_page_range. rewrite Hb, parse_parts_terms.
  by destruct (mapM term_value (Py.split "," s)).
Qed.

Lemma parse_page_range_in_range (s : string) (total_pages x : Z) :
  x ∈ parse_page_range s total_pages -> 0 <= x < total_pages.
Proof.
  destruct (Py.blank s) eqn:Hb.
  - unfold parse_page_range. rewrite Hb. unfold Py.range.
    rewrite elem_of_seqZ. lia.
  - rewrite parse_page_range_terms by done.
    destruct (mapM term_value (Py.split "," s)) as [ts|].
    + rewrite elem_of_sorted_set. intros Hx.
      apply elem_of_concat in Hx as (l & Hxl & Hl).
      apply list_elem_of_fmap in Hl as (t & -> & _).
      by eapply term_pages_in_range.
    + intros Hx. by apply elem_of_nil in Hx.
Qed.

Lemma parse_page_range_strict (s : string) (total_pages : Z) :
  StronglySorted Z.lt (parse_page_range s total_pages).
Proof.
  destruct (Py.blank s) eqn:Hb.
  - unfold parse_page_range. rewrite Hb. apply range_strict.
  - rewrite parse_page_range_terms by done.
    destruct (mapM term_value (Py.split "," s)) as [ts|]; [|constructor].
    apply sorted_NoDup_strict; [apply sorted_set_sorted | apply sorted_set_NoDup].
Qed.

(** C7: for every range expression and every [total_pages], the list
    [parse_page_range] returns is sorted ascending and free of
    duplicates (strictly ascending), every element lies in
    [0, total_pages); a blank expression returns exactly
    [0 .. total_pages - 1]; and for [total_pages = 0] the result is
    empty whatever the expression. *)
Theorem parse_page_range_sorted_subset (page_range_str : string) (total_pages : Z) :
  let pages := parse_page_range page_range_str total_pages in
  StronglySorted Z.le pages /\
  NoDup pages /\
  StronglySorted Z.lt pages /\
  (forall x, x ∈ pages -> 0 <= x < total_pages) /\
  (Py.blank page_range_str = true -> pages = seqZ 0 total_pages) /\
  (total_pages = 0 -> pages = []).
Proof.
  intros pages. pose proof (parse_page_range_strict page_range_str total_pages) as Hs.
  fold pages in Hs. split; [|split; [|split; [|split; [|split]]]].
  - by apply strict_sorted_le.
  - by apply strict_sorted_NoDup.
  - done.
  - intros x Hx. by apply parse_page_range_in_range in Hx.
  - intros Hb. unfold pages, parse_page_range. rewrite Hb. unfold Py.range.
    f_equal. lia.
  - intros ->. destruct pages as [|x l] eqn:E; [done|].
    assert (x ∈ parse_page_range page_range_str 0) as Hx by (fold pages; rewrite E; left).
    apply parse_page_range_in_range in Hx. lia.
Qed.

Lemma range_nil_iff (a b : Z) : Py.range a b = [] <-> b <= a.
Proof.
  unfold Py.range. split.
  - intros E. apply (f_equal length) in E. rewrite length_seqZ in E. simpl in E. lia.
  - intros. apply seqZ_nil. lia.
Qed.

Lemma parse_parts_skip (total_pages : Z) (pre post : list string) (part : string)
    (t : term) (pages : list Z) :
  term_value part = Some t -> term_pages total_pages t = [] ->
  parse_parts total_pages (pre ++ part :: post) pages
  = parse_parts total_pages (pre ++ post) pages.
Proof.
  intros Ht Hnil. revert pages. induction pre as [|p pre IH]; intros pages.
  - simpl app. by rewrite parse_parts_cons, Ht, Hnil, app_nil_r.
  - rewrite <- !app_comm_cons, !parse_parts_cons.
    destruct (term_value p); [apply IH|done].
Qed.

(** C8: a part that is neither an integer nor a range of two integers
    makes [parse_page_range] return the empty list whatever the other
    parts are; a range whose clamped bounds satisfy start > end has no
    index and is passed over, the result being the sorted set of the
    indices of all the parts; ["abc"] and ["2-1"] both give the empty
    list, the first as an invalid part and the second as an empty
    range, and ["1-3,5"] gives [0, 1, 2, 4] on five pages. *)
Theorem invalid_part_and_empty_range :
  (forall (s part : string) (total_pages : Z),
     Py.blank s = false -> part ∈ Py.split "," s -> term_value part = None ->
     parse_page_range s total_pages = []) /\
  (forall (s : string) (ts : list term) (total_pages : Z),
     Py.blank s = false -> mapM term_value (Py.split "," s) = Some ts ->
     parse_page_range s total_pages
     = Py.sorted_set (concat (term_pages total_pages <$> ts))) /\
  (forall (start end_ total_pages : Z),
     term_pages total_pages (Range start end_) = []
     <-> Z.min total_pages end_ < Z.max 1 start) /\
  (forall (pre post : list string) (part : string) (start end_ total_pages : Z)
          (pages : list Z),
     term_value part = Some (Range start end_) ->
     Z.min total_pages end_ < Z.max 1 start ->
     parse_parts total_pages (pre ++ part :: post) pages
     = parse_parts total_pages (pre ++ post) pages) /\
  (term_value "abc" = None /\ parse_page_range "abc" 5 = []) /\
  (term_value "2-1" = Some (Range 2 1) /\ parse_page_range "2-1" 5 = []) /\
  parse_page_range "1-3,5" 5 = [0; 1; 2; 4] /\
  parse_page_range "2-1,4" 5 = [3].
Proof.
  split; [|split; [|split; [|split; [|split; [|split; [|split]]]]]].
  - intros s part total_pages Hb Hin Hbad.
    rewrite parse_page_range_terms by done.
    assert (mapM term_value (Py.split "," s) = None) as ->; [|done].
    apply mapM_None_2, Exists_exists. eauto.
  - intros s ts total_pages Hb Hts.
    by rewrite parse_page_range_terms, Hts.
  - intros start end_ total_pages. simpl. rewrite range_nil_iff. lia.
  - intros pre post part start end_ total_pages pages Ht Hempty.
    apply (parse_parts_skip _ _ _ _ _ _ Ht). simpl. apply range_nil_iff. lia.
  - split; vm_compute; reflexivity.
  - split; vm_compute; reflexivity.
  - vm_compute. reflexivity.
  - vm_compute. reflexivity.
Qed.

(** ** What the splitter emits *)

Section SplitterInvariants.
Variable enc : encoding.
Variable max_tokens : Z.
Hypothesis budget_nonneg : 0 <= max_tokens.

Section Progress.
Context {C : Type} (emit : list token -> C).
Hypothesis separator_token : encode enc Py.nl <> [].





End Progress.

(** With a separator of one token, the count is the length of the
    buffer, and no buffer ever holds more than [max_tokens + 1]
    tokens. *)
Hypothesis separator_one_token : length (encode enc Py.nl) = 1%nat.

Lemma slice_loop_within fuel (tokens : list token) (cs r : list (list token)) :
  slice_loop id fuel max_tokens tokens cs = Some r ->
  Forall (within max_tokens 1) cs -> Forall (within max_tokens 1) r.
Proof.
  revert tokens cs. induction fuel as [|fuel IH]; intros tokens cs Hr Hcs; [done|].
  destruct (decide (tokens = [])) as [->|Hne].
  - simpl in Hr. by injection Hr as <-.
  - rewrite slice_loop_S in Hr by done. apply IH in Hr; [done|].
    apply Forall_app. split; [done|]. constructor; [|constructor].
    unfold within, id, Py.slice_to.
    destruct (Z.ltb_spec (Z.min (Z.of_nat (length tokens)) max_tokens) 0); [lia|].
    rewrite length_take. lia.
Qed.

Lemma split_paragraph_counted fuel st para st' :
  counted max_tokens st ->
  split_paragraph enc id fuel max_tokens st para = Some st' ->
  counted max_tokens st'.
Proof.
  unfold split_paragraph, counted.
  destruct st as [cs cc cnt]; simpl. intros (Hlen & Hcnt & Hcs).
  destruct (Z.ltb_spec max_tokens (cnt + Z.of_nat (length (encode enc para))))
    as [Hover|Hfit].
  - assert (Forall (within max_tokens 1)
              (chunks (match cc with
                       | [] => SplitState cs cc cnt
                       | _ :: _ => SplitState (cs ++ [id cc]) [] 0
                       end))) as Hcs'.
    { destruct cc; simpl; [done|]. apply Forall_app. split; [done|].
      constructor; [|constructor]. unfold within, id. lia. }
    destruct (Z.ltb_spec max_tokens (Z.of_nat (length (encode enc para))))
      as [Hbig|Hsmall].
    + destruct (slice_loop id fuel max_tokens (encode enc para) _) as [r|] eqn:Hr;
        simpl; intros [= <-]; simpl.
      apply slice_loop_within in Hr; [|done].
      destruct cc; simpl in *; repeat split; try done; lia.
    + intros [= <-]; simpl. repeat split; [lia|done].
  - intros [= <-]; simpl. rewrite !length_app, separator_one_token.
    repeat split; [lia|lia|done].
Qed.

Lemma split_paragraphs_counted fuel st paragraphs st' :
  counted max_tokens st ->
  split_paragraphs enc id fuel max_tokens st paragraphs = Some st' ->
  counted max_tokens st'.
Proof.
  revert st. induction paragraphs as [|para rest IH]; intros st Hst Hrun.
  - simpl in Hrun. by injection Hrun as <-.
  - simpl in Hrun.
    destruct (split_paragraph enc id fuel max_tokens st para) as [st1|] eqn:Hstep;
      simpl in Hrun; [|done].
    eapply IH; [|done]. by eapply split_paragraph_counted.
Qed.

(** X1: every chunk is decoded from at most [max_tokens + 1] tokens. *)
Lemma token_chunks_within_one fuel text (tcs : list (list token)) :
  split_text_into_token_chunks fuel text max_tokens enc = Some tcs ->
  Forall (within max_tokens 1) tcs.
Proof.
  unfold split_text_into_token_chunks, split_with. intros Hrun.
  destruct (split_paragraphs enc id fuel max_tokens _ _) as [st|] eqn:Hst;
    simpl in Hrun; [|done].
  injection Hrun as <-.
  apply split_paragraphs_counted in Hst as (Hlen & Hcnt & Hcs).
  - unfold final_chunks. destruct (current_chunk st) eqn:E; [done|].
    apply Forall_app. split; [done|]. constructor; [|constructor].
    unfold within, id. lia.
  - unfold counted. simpl. repeat split; [lia|constructor].
Qed.

End SplitterInvariants.

(** ** The orchestrator *)

Section OrchestratorFacts.
Variable enc : encoding.
Variable str_columns : list string -> string.
Variable str_format : string -> string -> result string.
Variable json_loads : string -> option json.
Variable client : Type.
Variable create : client -> request -> result response * client.

Local Abbreviation records_of := (chunk_records str_format json_loads client create).
Local Abbreviation contribs := (contributions str_format json_loads client create).
Local Abbreviation loop := (process_chunks str_format json_loads client create).
Local Abbreviation from_chunks :=
  (extract_from_chunks str_format json_loads client create).
Local Abbreviation budget := (available_tokens enc str_columns str_format).
Local Abbreviation prompt_of := (generate_prompt str_columns).
Local Abbreviation extract :=
  (extract_data_with_openai enc str_columns str_format json_loads client create).

(** The loop adds the records of the first chunk and goes on with the
    other chunks from the world the first chunk leaves. *)
Lemma process_chunks_cons tpl chunk rest all_data (w : world client) :
  loop tpl (chunk :: rest) all_data w
  = loop tpl rest (all_data ++ (records_of tpl chunk w).1) (records_of tpl chunk w).2.
Proof.
  unfold chunk_records. cbn [process_chunks].
  unfold mbind, M_bind, mret, M_ret.
  destruct (chunk_try str_format json_loads client create tpl chunk w) as [[data|msg] w1];
    simpl; [done|].
  by rewrite app_nil_r.
Qed.

Lemma process_chunks_app tpl pre post all_data (w : world client) :
  loop tpl (pre ++ post) all_data w
  = loop tpl post (loop tpl pre all_data w).1 (loop tpl pre all_data w).2.
Proof.
  revert all_data w. induction pre as [|chunk pre IH]; intros all_data w; [done|].
  rewrite <- app_comm_cons, !process_chunks_cons. apply IH.
Qed.

(** The accumulated list is what was there followed by the
    contributions of the chunks, in chunk order. *)
Lemma process_chunks_contributions tpl text_chunks all_data (w : world client) :
  (loop tpl text_chunks all_data w).1 = all_data ++ concat (contribs tpl text_chunks w).
Proof.
  revert all_data w. induction text_chunks as [|chunk rest IH]; intros all_data w.
  - simpl. by rewrite app_nil_r.
  - rewrite process_chunks_cons, IH. cbn [contributions].
    destruct (records_of tpl chunk w) as [data w1]. simpl.
    by rewrite app_assoc.
Qed.

(** The world the loop leaves does not depend on the records
    accumulated so far. *)
Lemma process_chunks_world tpl text_chunks all_data (w : world client) :
  (loop tpl text_chunks all_data w).2 = (loop tpl text_chunks [] w).2.
Proof.
  revert all_data w. induction text_chunks as [|chunk rest IH]; intros all_data w; [done|].
  rewrite !process_chunks_cons, IH. symmetry. apply IH.
Qed.

Lemma contributions_app tpl pre post (w : world client) :
  contribs tpl (pre ++ post) w
  = contribs tpl pre w ++ contribs tpl post (loop tpl pre [] w).2.
Proof.
  revert w. induction pre as [|chunk pre IH]; intros w; [done|].
  rewrite <- app_comm_cons. cbn [contributions].
  rewrite process_chunks_cons, process_chunks_world.
  destruct (records_of tpl chunk w) as [data w1]. simpl. by rewrite IH.
Qed.

(** The call, once the text is not blank and the budget is positive. *)
Lemma extract_main_path fuel text columns instructions api_key multiple_rows
    (w : world client) a :
  Py.blank text = false -> budget columns instructions = Ok a -> 0 < a ->
  extract fuel text columns instructions api_key multiple_rows w
  = text_chunks ← split_text_into_chunks fuel text a enc;
    Some (from_chunks (prompt_of columns instructions) multiple_rows text_chunks w).
Proof.
  intros Hb Ha Hpos. unfold extract_data_with_openai. rewrite Hb, Ha.
  destruct (Z.leb_spec a 0); [lia|done].
Qed.

Lemma extract_from_chunks_cons tpl multiple_rows chunk rest (w : world client) :
  from_chunks tpl multiple_rows (chunk :: rest) w
  = (select_rows multiple_rows (loop tpl (chunk :: rest) [] w).1,
     (loop tpl (chunk :: rest) [] w).2).
Proof.
  unfold extract_from_chunks, mbind, M_bind, mret, M_ret.
  by destruct (loop tpl (chunk :: rest) [] w).
Qed.

Lemma first_of_first_nonempty_length (per_chunk : list (list json)) :
  (length (first_of_first_nonempty per_chunk) <= 1)%nat.
Proof. induction per_chunk as [|[|d ds] rest IH]; simpl; lia. Qed.

Lemma first_of_concat (per_chunk : list (list json)) :
  select_rows false (concat per_chunk) = first_of_first_nonempty per_chunk.
Proof.
  induction per_chunk as [|[|d ds] rest IH]; simpl; [done|apply IH|done].
Qed.


(** The call either returns without the splitter or calls it with a
    budget of at least one. *)
Lemma extract_cases fuel text columns instructions api_key multiple_rows
    (w : world client) :
  (exists r, extract fuel text columns instructions api_key multiple_rows w = Some ([], r)
             /\ (Py.blank text = true
                 \/ (exists msg, budget columns instructions = Raise msg)
                 \/ (exists a, budget columns instructions = Ok a /\ a <= 0)))
  \/ (exists a, Py.blank text = false /\ budget columns instructions = Ok a /\ 1 <= a /\
        extract fuel text columns instructions api_key multiple_rows w
        = text_chunks ← split_text_into_chunks fuel text a enc;
          Some (from_chunks (prompt_of columns instructions) multiple_rows text_chunks w)).
Proof.
  destruct (Py.blank text) eqn:Hb.
  { left. unfold extract_data_with_openai. rewrite Hb. eauto. }
  destruct (budget columns instructions) as [a|msg] eqn:Ha.
  - destruct (Z.le_gt_cases a 0) as [Hle|Hgt].
    + left. unfold extract_data_with_openai. rewrite Hb, Ha.
      destruct (Z.leb_spec a 0); [|lia]. eexists. split; [reflexivity|]. eauto.
    + right. exists a. split; [done|]. split; [done|]. split; [lia|].
      apply extract_main_path; [done|done|lia].
  - left. unfold extract_data_with_openai. rewrite Hb, Ha.
    eexists. split; [reflexivity|]. eauto.
Qed.


(** C3: when the text is not blank and the static prompt renders, the
    budget is [model_max_tokens] minus the token count of the rendered
    static prompt, under the tokenizer that is also handed to the
    splitter, minus [reserved_response_tokens]; when the budget is not
    positive the call reports that the prompt is too long and returns
    the empty list with no request sent, whatever the fuel, so without
    the splitter; otherwise the splitter is called with the budget. *)
Theorem prompt_budget fuel text columns instructions api_key multiple_rows
    (w : world client) a :
  Py.blank text = false ->
  budget columns instructions = Ok a ->
  (exists static_prompt,
     str_format (prompt_of columns instructions) EmptyString = Ok static_prompt /\
     a = model_max_tokens - Z.of_nat (length (encode enc static_prompt))
         - reserved_response_tokens) /\
  (a <= 0 ->
     extract fuel text columns instructions api_key multiple_rows w
     = Some ([], World (remote w)
                   (console w ++
                      [StError "Prompt is too long. Reduce columns/instructions length."]))) /\
  (0 < a ->
     extract fuel text columns instructions api_key multiple_rows w
     = text_chunks ← split_text_into_chunks fuel text a enc;
       Some (from_chunks (prompt_of columns instructions) multiple_rows text_chunks w)).
Proof.
  intros Hb Ha. split; [|split].
  - unfold available_tokens in Ha.
    destruct (str_format (prompt_of columns instructions) EmptyString)
      as [static_prompt|msg]; [|done].
    injection Ha as <-. eauto.
  - intros Hle. unfold extract_data_with_openai. rewrite Hb, Ha.
    destruct (Z.leb_spec a 0); [done|lia].
  - intros Hpos. by apply extract_main_path.
Qed.

(** C4: with [multiple_rows] false the call returns at most one
    record: none when it returns before the loop, and otherwise the
    first record of the first chunk whose response yielded a record. *)
Theorem single_row_first_record fuel text columns instructions api_key
    (w w' : world client) (r : list json) :
  extract fuel text columns instructions api_key false w = Some (r, w') ->
  (length r <= 1)%nat /\
  (r = [] /\ (Py.blank text = true
              \/ (exists msg, budget columns instructions = Raise msg)
              \/ (exists a, budget columns instructions = Ok a /\ a <= 0))
   \/ exists a text_chunks,
        Py.blank text = false /\ budget columns instructions = Ok a /\ 1 <= a /\
        split_text_into_chunks fuel text a enc = Some text_chunks /\
        r = first_of_first_nonempty
              (contribs (prompt_of columns instructions) text_chunks w)).
Proof.
  intros Hrun.
  destruct (extract_cases fuel text columns instructions api_key false w)
    as [(w0 & Hearly & Hwhy)|(a & Hb & Ha & Hpos & Hmain)].
  - rewrite Hearly in Hrun. injection Hrun as <- <-. split; [simpl; lia|]. by left.
  - rewrite Hmain in Hrun.
    destruct (split_text_into_chunks fuel text a enc) as [text_chunks|] eqn:Hsplit;
      simpl in Hrun; [|done].
    injection Hrun as Hrun.
    assert (r = first_of_first_nonempty
                  (contribs (prompt_of columns instructions) text_chunks w)) as Hr.
    { apply (f_equal fst) in Hrun. cbn [fst] in Hrun. rewrite <- Hrun.
      destruct text_chunks as [|chunk rest]; [done|].
      rewrite extract_from_chunks_cons. cbn [fst].
      rewrite process_chunks_contributions. apply first_of_concat. }
    split.
    + rewrite Hr. apply first_of_first_nonempty_length.
    + right. exists a, text_chunks. done.
Qed.

(** C6: when the request for one chunk raises, the chunk contributes
    no record, the failure goes to the console, and the loop goes on
    with the chunks that follow; the accumulated list is the records
    of the chunks before it followed by the records of the chunks
    after it, in chunk order, and the call returns it (its first
    record in single-row mode). *)
Theorem failed_chunk_is_skipped fuel text columns instructions api_key multiple_rows
    (w : world client) a pre chunk post prompt msg remote' :
  Py.blank text = false ->
  budget columns instructions = Ok a -> 0 < a ->
  split_text_into_chunks fuel text a enc = Some (pre ++ chunk :: post) ->
  let tpl := prompt_of columns instructions in
  let before := loop tpl pre [] w in
  str_format tpl chunk = Ok prompt ->
  create (remote before.2) (Request model_name prompt reserved_response_tokens 0)
  = (Raise msg, remote') ->
  let w_failed :=
    World remote'
      (console before.2 ++ [StError ("Error processing chunk: " +:+ msg); PrintExc msg]) in
  let after := loop tpl post before.1 w_failed in
  records_of tpl chunk before.2 = ([], w_failed) /\
  loop tpl (pre ++ chunk :: post) [] w = after /\
  after.1 = concat (contribs tpl pre w) ++ concat (contribs tpl post w_failed) /\
  contribs tpl (pre ++ chunk :: post) w
  = contribs tpl pre w ++ [] :: contribs tpl post w_failed /\
  extract fuel text columns instructions api_key multiple_rows w
  = Some (select_rows multiple_rows after.1, after.2).
Proof.
  intros Hb Ha Hpos Hsplit tpl before Hprompt Hcreate w_failed after.
  assert (records_of tpl chunk before.2 = ([], w_failed)) as Hrec.
  { unfold chunk_records, chunk_try. rewrite Hprompt.
    unfold mbind, M_bind, mret, M_ret, completions_create. rewrite Hcreate.
    unfold st_error, print_exc, w_failed. simpl. by rewrite <- app_assoc. }
  assert (loop tpl (pre ++ chunk :: post) [] w = after) as Hloop.
  { rewrite process_chunks_app, process_chunks_cons. fold before.
    rewrite Hrec. simpl. by rewrite app_nil_r. }
  split; [done|]. split; [done|]. split; [|split].
  - unfold after. rewrite process_chunks_contributions. f_equal.
    unfold before. by rewrite process_chunks_contributions.
  - rewrite contributions_app. fold before. cbn [contributions]. by rewrite Hrec.
  - rewrite (extract_main_path _ _ _ _ _ _ _ a) by done. rewrite Hsplit. simpl.
    fold tpl. destruct pre as [|c0 pre0].
    + simpl app in *. by rewrite extract_from_chunks_cons, Hloop.
    + rewrite <- app_comm_cons in *. by rewrite extract_from_chunks_cons, Hloop.
Qed.

(** C10: with a budget of at least one the splitter ends on every
    text, each pass of the slicing loop taking at least one token off
    the tokens that remain; with a budget of zero the loop never ends
    on a non-empty paragraph; and the call only ever invokes the
    splitter with a budget of at least one, so the call itself always
    ends. *)
Theorem splitter_terminates :
  (forall fuel text max_tokens,
     1 <= max_tokens -> (enough_fuel enc text <= fuel)%nat ->
     is_Some (split_text_into_chunks fuel text max_tokens enc)) /\
  (forall (tokens : list token) max_tokens,
     1 <= max_tokens -> tokens <> [] ->
     let take := Z.min (Z.of_nat (length tokens)) max_tokens in
     1 <= take /\
     Z.of_nat (length (Py.slice_from tokens take)) = Z.of_nat (length tokens) - take) /\
  (forall fuel (tokens : list token) max_tokens (text_chunks : list string),
     max_tokens <= 0 -> tokens <> [] ->
     slice_loop (decode enc) fuel max_tokens tokens text_chunks = None) /\
  (forall fuel text,
     Py.contains Py.newline text = false -> encode enc text <> [] ->
     split_text_into_chunks fuel text 0 enc = None) /\
  (forall fuel text columns instructions api_key multiple_rows (w : world client),
     extract fuel text columns instructions api_key multiple_rows w = None ->
     exists a, budget columns instructions = Ok a /\ 1 <= a /\
               split_text_into_chunks fuel text a enc = None) /\
  (forall fuel text columns instructions api_key multiple_rows (w : world client),
     (enough_fuel enc text <= fuel)%nat ->
     is_Some (extract fuel text columns instructions api_key multiple_rows w)).
Proof.
  split; [|split; [|split; [|split; [|split]]]].
  - intros fuel text max_tokens Hm Hfuel. by apply split_with_is_Some.
  - intros tokens max_tokens Hm Hne take.
    assert (0 < length tokens)%nat by (destruct tokens; simpl; [done|lia]).
    split; [unfold take; lia|].
    unfold take. rewrite slice_from_drop, length_drop by done. lia.
  - intros fuel tokens max_tokens text_chunks Hm Hne. by apply slice_loop_diverges.
  - intros fuel text Hnl Hne. by apply split_with_zero_budget.
  - intros fuel text columns instructions api_key multiple_rows w Hnone.
    destruct (extract_cases fuel text columns instructions api_key multiple_rows w)
      as [(w0 & Hearly & _)|(a & Hb & Ha & Hpos & Hmain)].
    + by rewrite Hearly in Hnone.
    + exists a. split; [done|]. split; [done|]. rewrite Hmain in Hnone.
      by destruct (split_text_into_chunks fuel text a enc).
  - intros fuel text columns instructions api_key multiple_rows w Hfuel.
    destruct (extract_cases fuel text columns instructions api_key multiple_rows w)
      as [(w0 & Hearly & _)|(a & Hb & Ha & Hpos & Hmain)].
    + by rewrite Hearly.
    + rewrite Hmain.
      destruct (split_with_is_Some enc (decode enc) fuel text a Hpos Hfuel) as [cs Hcs].
      unfold split_text_into_chunks. by rewrite Hcs.
Qed.

End OrchestratorFacts.

(** ** Response parsing *)

#[local] Arguments String.append !_ _ / : simpl nomatch.

Lemma append_assoc (a b c : string) : (a +:+ b) +:+ c = a +:+ b +:+ c.
Proof. induction a as [|x a IH]; simpl; [done|by rewrite IH]. Qed.

Lemma contains_append (c : ascii) (a b : string) :
  Py.contains c (a +:+ b) = Py.contains c a || Py.contains c b.
Proof.
  induction a as [|x a IH]; simpl; [done|]. by rewrite IH, orb_assoc.
Qed.

(** A match holds a right brace. *)
Lemma match_at_inv (s m rest : string) :
  match_at s m rest ->
  exists body,
    s = String "{" (body +:+ String "}" rest) /\
    m = String "{" (body +:+ "}") /\
    Py.contains "}" body = false /\ Py.contains Py.newline body = false.
Proof. intros [body rest' Hb Hn]. by exists body. Qed.

Lemma no_match_without_brace (s m rest : string) :
  Py.contains "}" s = false -> ~ match_at s m rest.
Proof.
  intros Hs (body & -> & _ & _ & _)%match_at_inv.
  simpl in Hs. rewrite contains_append in Hs. simpl in Hs.
  by rewrite orb_true_r in Hs.
Qed.

Lemma no_match_other_start (c : ascii) (s m rest : string) :
  Ascii.eqb c "{" = false -> ~ match_at (String c s) m rest.
Proof.
  intros Hc (body & [= -> _] & _)%match_at_inv. done.
Qed.

(** A run without right brace that ends at a line break cannot be the
    start of a body that ends at a right brace. *)
Lemma line_break_before_brace (p s body rest : string) :
  Py.contains "}" p = false -> Py.contains Py.newline body = false ->
  p +:+ String Py.newline s <> body +:+ String "}" rest.
Proof.
  revert body. induction p as [|x p IH]; intros body Hp Hbody E.
  - destruct body as [|b body]; simpl in E; [done|].
    injection E as <- _. done.
  - simpl in Hp. apply orb_false_iff in Hp as [Hx Hp].
    destruct body as [|b body]; simpl in E.
    + injection E as -> _. done.
    + injection E as <- E. simpl in Hbody. apply orb_false_iff in Hbody as [_ Hbody].
      by eapply IH.
Qed.

Lemma findall_spec_no_brace (p : string) :
  Py.contains "}" p = false -> findall_spec p [].
Proof.
  induction p as [|c p IH]; intros Hp; [constructor|].
  apply FindallSkip.
  - intros m rest. by apply no_match_without_brace.
  - apply IH. simpl in Hp. by apply orb_false_iff in Hp as [_ ?].
Qed.

Lemma findall_spec_line_break (p s : string) (ms : list string) :
  Py.contains "}" p = false -> findall_spec s ms ->
  findall_spec (p +:+ String Py.newline s) ms.
Proof.
  intros Hp Hs. induction p as [|c p IH]; simpl.
  - apply FindallSkip; [|done]. intros m rest. by apply no_match_other_start.
  - simpl in Hp. apply orb_false_iff in Hp as [Hc Hp].
    apply FindallSkip; [|by apply IH].
    intros m rest (body & [= -> E] & _ & _ & Hbody)%match_at_inv.
    by eapply line_break_before_brace.
Qed.

(** The scan agrees with the pattern, whether or not a candidate is
    open. *)
Lemma findall_from_spec (s : string) :
  (forall body,
     Py.contains "}" body = false -> Py.contains Py.newline body = false ->
     findall_spec (String "{" (body +:+ s)) (findall_from (Some (String "{" body)) s)) /\
  findall_spec s (findall_from None s).
Proof.
  induction s as [|c s [IHopen IHnone]].
  - split; [|constructor]. intros body Hb _. simpl.
    apply findall_spec_no_brace. simpl. rewrite contains_append. simpl.
    by rewrite Hb.
  - split.
    + intros body Hb Hn. cbn [findall_from].
      destruct (Ascii.eqb c "}") eqn:Hclose.
      * apply Ascii.eqb_eq in Hclose as ->.
        apply FindallMatch with (rest := s); [|done].
        change (String "{" body +:+ "}") with ("{" +:+ body +:+ "}").
        change (String "{" (body +:+ String "}" s)) with ("{" +:+ body +:+ "}" +:+ s).
        by constructor.
      * destruct (Ascii.eqb c Py.newline) eqn:Hbreak.
        -- apply Ascii.eqb_eq in Hbreak as ->.
           change (String "{" (body +:+ String Py.newline s))
             with (String "{" body +:+ String Py.newline s).
           apply findall_spec_line_break; [|done]. simpl. by rewrite Hb.
        -- change (String "{" body +:+ String c EmptyString)
             with (String "{" (body +:+ String c EmptyString)).
           replace (body +:+ String c s) with ((body +:+ String c EmptyString) +:+ s)
             by by rewrite append_assoc.
           apply IHopen; rewrite contains_append; simpl.
           ++ by rewrite Hb, Hclose.
           ++ by rewrite Hn, Hbreak.
    + cbn [findall_from]. destruct (Ascii.eqb c "{") eqn:Hopen.
      * apply Ascii.eqb_eq in Hopen as ->. by apply (IHopen EmptyString).
      * apply FindallSkip; [|done]. intros m rest. by apply no_match_other_start.
Qed.

(** What the scan does once a candidate is open. *)
Lemma findall_from_open_match (acc body rest : string) :
  Py.contains "}" body = false -> Py.contains Py.newline body = false ->
  findall_from (Some acc) (body +:+ String "}" rest)
  = (acc +:+ body +:+ "}") :: findall_from None rest.
Proof.
  revert acc. induction body as [|c body IH]; intros acc Hb Hn; [done|].
  simpl in Hb, Hn. apply orb_false_iff in Hb as [Hc Hb].
  apply orb_false_iff in Hn as [Hc' Hn].
  cbn [append findall_from]. rewrite Hc, Hc', IH by done.
  by rewrite append_assoc.
Qed.

(** A candidate that cannot be closed is given up: the scan finds what
    it finds without it. *)
Lemma findall_from_open_no_match (acc s : string) :
  (forall body rest, Py.contains "}" body = false ->
     Py.contains Py.newline body = false -> s <> body +:+ String "}" rest) ->
  findall_from (Some acc) s = findall_from None s.
Proof.
  revert acc. induction s as [|c s IH]; intros acc Hno; [done|].
  cbn [findall_from].
  destruct (Ascii.eqb c "}") eqn:Hclose.
  { apply Ascii.eqb_eq in Hclose as ->. by destruct (Hno EmptyString s). }
  destruct (Ascii.eqb c Py.newline) eqn:Hbreak.
  { apply Ascii.eqb_eq in Hbreak as ->. done. }
  assert (forall body rest, Py.contains "}" body = false ->
            Py.contains Py.newline body = false -> s <> body +:+ String "}" rest)
    as Hno'.
  { intros body rest Hb Hn ->. apply (Hno (String c body) rest); [| |done]; simpl.
    - by rewrite Hclose.
    - by rewrite Hbreak. }
  rewrite IH by done. destruct (Ascii.eqb c "{"); [|done]. by rewrite IH.
Qed.

(** The pattern decides the list of candidates. *)
Lemma findall_spec_unique (s : string) (ms : list string) :
  findall_spec s ms -> ms = findall_objects s.
Proof.
  unfold findall_objects. induction 1 as [|s m rest ms Hm _ IH|c s ms Hno _ IH].
  - done.
  - apply match_at_inv in Hm as (body & -> & -> & Hb & Hn).
    cbn [findall_from]. change (Ascii.eqb "{" "{") with true. cbv iota.
    rewrite findall_from_open_match by done. by rewrite IH.
  - cbn [findall_from]. destruct (Ascii.eqb c "{") eqn:Hopen; [|done].
    apply Ascii.eqb_eq in Hopen as ->.
    rewrite findall_from_open_no_match; [done|].
    intros body rest Hb Hn ->.
    apply (Hno (String "{" (body +:+ "}")) rest).
    change (String "{" (body +:+ String "}" rest)) with ("{" +:+ body +:+ "}" +:+ rest).
    change (String "{" (body +:+ "}")) with ("{" +:+ body +:+ "}").
    by constructor.
Qed.

Lemma parse_candidates_omap (json_loads : string -> option json)
    (xs : list string) (data : list json) :
  parse_candidates json_loads xs data = data ++ omap json_loads xs.
Proof.
  revert data. induction xs as [|x xs IH]; intros data; simpl.
  - by rewrite app_nil_r.
  - destruct (json_loads x); rewrite IH; [|done]. by rewrite <- app_assoc.
Qed.

(** C5: the response is flattened, the candidates are the substrings
    the pattern matches, from left to right (each from a left brace to
    the first right brace after it), each candidate is decoded on its
    own, and the result is the list of the values of the candidates
    that decode; for the response of the example, the one record
    [{a: 1}]. *)
Theorem tolerant_response_parsing (json_loads : string -> option json) :
  json_loads example_candidate = Some (JObject [("a", JInt 1)]) ->
  (forall json_str,
     let flat := Py.replace Py.newline " " json_str in
     Py.contains Py.newline flat = false /\
     findall_spec flat (findall_objects flat) /\
     (forall ms, findall_spec flat ms -> ms = findall_objects flat) /\
     parse_response json_loads json_str = omap json_loads (findall_objects flat)) /\
  findall_objects (Py.replace Py.newline " " example_response) = [example_candidate] /\
  parse_response json_loads example_response = [JObject [("a", JInt 1)]].
Proof.
  intros Hex. split; [|split].
  - intros json_str flat. split; [|split; [|split]].
    + unfold flat. induction json_str as [|c s IH]; simpl; [done|].
      rewrite IH. destruct (Ascii.eqb c Py.newline) eqn:E; [done|]. by rewrite E.
    + apply findall_from_spec.
    + apply findall_spec_unique.
    + unfold parse_response. by rewrite parse_candidates_omap.
  - vm_compute. reflexivity.
  - unfold parse_response.
    replace (findall_objects (Py.replace Py.newline " " example_response))
      with [example_candidate] by (vm_compute; reflexivity).
    simpl. by rewrite Hex.
Qed.

Lemma tolerant_response_parsing_witness :
  Demo.json_loads example_candidate = Some (JObject [("a", JInt 1)]) /\
  parse_response Demo.json_loads example_response = [JObject [("a", JInt 1)]].
Proof.
  assert (Demo.json_loads example_candidate = Some (JObject [("a", JInt 1)])) as H
    by (vm_compute; reflexivity).
  split; [exact H|].
  exact (proj2 (proj2 (tolerant_response_parsing Demo.json_loads H))).
Defined.

(** ** Runs of the model *)

Example split_mixed_paragraphs :
  split_text_into_chunks 10 ("ab" +:+ Py.nl +:+ "cdefgh" +:+ Py.nl +:+ "i") 4 char_encoding
  = Some ["ab" +:+ Py.nl; "cdef"; "gh"; "i" +:+ Py.nl].
Proof. vm_compute. reflexivity. Qed.

Example parse_page_range_spaces_and_signs :
  parse_page_range " 3 , 1_0, +2,2 - 4 " 12 = [1; 2; 3; 9].
Proof. vm_compute. reflexivity. Qed.

(** The second of three requests fails: its chunk has no record, the
    others keep theirs. *)
Example loop_skips_failed_chunk :
  process_chunks Demo.str_format Demo.json_loads _ Demo.create
    "Text: {text}" ["one"; "two"; "three"] []
    (World [Demo.answer (Demo.object_a "1"); Raise "Rate limit reached";
            Demo.answer ("Here: " +:+ Demo.object_a "3")] [])
  = ([JObject [("a", JInt 1)]; JObject [("a", JInt 3)]],
     World [] [StError "Error processing chunk: Rate limit reached";
               PrintExc "Rate limit reached"]).
Proof. vm_compute. reflexivity. Qed.


Lemma prompt_budget_witness :
  Demo.extract 0 "invoice" ["a"] Demo.long_instructions "key" true (World [] [])
  = Some ([], World [] [StError "Prompt is too long. Reduce columns/instructions length."]).
Proof.
  destruct (prompt_budget char_encoding Demo.str_columns Demo.str_format Demo.json_loads
              _ Demo.create 0 "invoice" ["a"] Demo.long_instructions "key" true
              (World [] []) (-48)) as (_ & Hlong & _);
    [reflexivity | vm_compute; reflexivity | ].
  apply Hlong. lia.
Defined.

Lemma single_row_first_record_witness :
  Demo.extract 10 Demo.short_text ["a"] "dates as ISO" "key" false
    (World [Demo.answer ("Rows: " +:+ Demo.object_a "2" +:+ ", " +:+ Demo.object_a "3")] [])
  = Some ([JObject [("a", JInt 2)]], World [] []) /\
  (length [JObject [("a", JInt 2)]] <= 1)%nat.
Proof.
  assert (Demo.extract 10 Demo.short_text ["a"] "dates as ISO" "key" false
            (World [Demo.answer ("Rows: " +:+ Demo.object_a "2" +:+ ", "
                                 +:+ Demo.object_a "3")] [])
          = Some ([JObject [("a", JInt 2)]], World [] [])) as H
    by (vm_compute; reflexivity).
  split; [exact H|].
  exact (proj1 (single_row_first_record char_encoding Demo.str_columns Demo.str_format
                  Demo.json_loads _ Demo.create _ _ _ _ _ _ _ _ H)).
Defined.

(** A run of three chunks whose second request raises: with [#] at
    125650 tokens the static prompt leaves a budget of two tokens, so
    each of the three paragraphs is a chunk. The records of the first
    and of the third chunk are returned. *)
Lemma failed_chunk_is_skipped_witness :
  extract_data_with_openai (Demo.weighted_encoding 125650) Demo.str_columns
    Demo.str_format Demo.json_loads _ Demo.create 10 Demo.three_lines ["a"] "#" "key" true
    (World [Demo.answer (Demo.object_a "1"); Raise "Rate limit reached";
            Demo.answer (Demo.object_a "2")] [])
  = Some ([JObject [("a", JInt 1)]; JObject [("a", JInt 2)]],
          World [] [StError "Error processing chunk: Rate limit reached";
                    PrintExc "Rate limit reached"]).
Proof.
  pose proof (failed_chunk_is_skipped (Demo.weighted_encoding 125650) Demo.str_columns
                Demo.str_format Demo.json_loads _ Demo.create 10 Demo.three_lines ["a"]
                "#" "key" true
                (World [Demo.answer (Demo.object_a "1"); Raise "Rate limit reached";
                        Demo.answer (Demo.object_a "2")] [])
                2 ["ab" +:+ Py.nl] "cd" ["ef"]
                (match Demo.str_format
                         (generate_prompt Demo.str_columns ["a"] "#") "cd" with
                 | Ok p => p
                 | Raise _ => EmptyString
                 end)
                "Rate limit reached"
                [Demo.answer (Demo.object_a "2")]) as H.
  cbv zeta in H.
  destruct H as (_ & _ & _ & _ & Hx);
    [reflexivity | vm_compute; reflexivity | lia | vm_compute; reflexivity
    | vm_compute; reflexivity | vm_compute; reflexivity |].
  rewrite Hx. vm_compute. reflexivity.
Defined.

(** * Further properties of the module *)

(** ** The splitter: what the chunks hold *)

Section SplitterContents.
Variable enc : encoding.
Variable max_tokens : Z.

Lemma slice_parts {A} (l : list A) (k : Z) : Py.slice_to l k ++ Py.slice_from l k = l.
Proof. unfold Py.slice_to, Py.slice_from. destruct (k <? 0); apply take_drop. Qed.

Lemma slice_loop_concat fuel (tokens : list token) (cs r : list (list token)) :
  slice_loop id fuel max_tokens tokens cs = Some r ->
  concat r = concat cs ++ tokens.
Proof.
  revert tokens cs. induction fuel as [|fuel IH]; intros tokens cs Hr; [done|].
  destruct (decide (tokens = [])) as [->|Hne].
  - simpl in Hr. injection Hr as <-. by rewrite app_nil_r.
  - rewrite slice_loop_S in Hr by done. apply IH in Hr. rewrite Hr.
    rewrite concat_app. simpl. rewrite app_nil_r, <- app_assoc.
    unfold id. by rewrite slice_parts.
Qed.

(** One paragraph adds its tokens, and the separator when it is
    appended to the buffer. *)
Lemma split_paragraph_concat fuel st para st' :
  split_paragraph enc id fuel max_tokens st para = Some st' ->
  exists flag : bool,
    concat (chunks st') ++ current_chunk st'
    = (concat (chunks st) ++ current_chunk st)
      ++ encode enc para ++ (if flag then encode enc Py.nl else []).
Proof.
  unfold split_paragraph. destruct st as [cs cc cnt]; simpl.
  destruct (max_tokens <? cnt + Z.of_nat (length (encode enc para))).
  - destruct (max_tokens <? Z.of_nat (length (encode enc para))).
    + destruct cc as [|t cc]; simpl;
        destruct (slice_loop id fuel max_tokens (encode enc para) _) as [r|] eqn:Hr;
        simpl; intros [= <-]; simpl;
        apply slice_loop_concat in Hr; exists false; rewrite Hr, ?concat_app; simpl;
        by rewrite ?app_nil_r.
    + destruct cc as [|t cc]; simpl; intros [= <-]; simpl; exists false;
        rewrite ?concat_app; simpl; by rewrite ?app_nil_r.
  - intros [= <-]; simpl. exists true. by rewrite !app_assoc.
Qed.

Lemma split_paragraphs_concat fuel st paragraphs st' :
  split_paragraphs enc id fuel max_tokens st paragraphs = Some st' ->
  exists separated : list bool,
    length separated = length paragraphs /\
    concat (chunks st') ++ current_chunk st'
    = (concat (chunks st) ++ current_chunk st)
      ++ paragraph_tokens enc paragraphs separated.
Proof.
  revert st. induction paragraphs as [|para rest IH]; intros st Hrun.
  - simpl in Hrun. injection Hrun as <-. exists []. by rewrite app_nil_r.
  - simpl in Hrun.
    destruct (split_paragraph enc id fuel max_tokens st para) as [st1|] eqn:Hstep;
      simpl in Hrun; [|done].
    apply split_paragraph_concat in Hstep as [flag Hstep].
    apply IH in Hrun as (separated & Hlen & Hrun).
    exists (flag :: separated). split; [simpl; by rewrite Hlen|].
    rewrite Hrun, Hstep. simpl. by rewrite <- !app_assoc.
Qed.

(** X3: the tokens of the chunks, put end to end, are the tokens of the
    paragraphs in their order, each followed by at most one separator:
    no token of the text is lost, repeated or moved. *)
Theorem chunks_keep_every_token fuel text (tcs : list (list token)) :
  split_text_into_token_chunks fuel text max_tokens enc = Some tcs ->
  exists separated : list bool,
    length separated = length (Py.split Py.newline text) /\
    concat tcs = paragraph_tokens enc (Py.split Py.newline text) separated.
Proof.
  unfold split_text_into_token_chunks, split_with. intros Hrun.
  destruct (split_paragraphs enc id fuel max_tokens _ _) as [st|] eqn:Hst;
    simpl in Hrun; [|done].
  injection Hrun as <-.
  apply split_paragraphs_concat in Hst as (separated & Hlen & Hst).
  exists separated. split; [done|]. simpl in Hst. rewrite <- Hst.
  unfold final_chunks. destruct (current_chunk st) eqn:E.
  - by rewrite app_nil_r.
  - rewrite concat_app. simpl. by rewrite app_nil_r.
Qed.

(** *** No empty chunk *)

Hypothesis budget_positive : 1 <= max_tokens.

Lemma slice_loop_nonempty fuel (tokens : list token) (cs r : list (list token)) :
  slice_loop id fuel max_tokens tokens cs = Some r ->
  Forall (fun c => c <> []) cs -> Forall (fun c => c <> []) r.
Proof.
  revert tokens cs. induction fuel as [|fuel IH]; intros tokens cs Hr Hcs; [done|].
  destruct (decide (tokens = [])) as [->|Hne].
  - simpl in Hr. by injection Hr as <-.
  - rewrite slice_loop_S in Hr by done. apply IH in Hr; [done|].
    apply Forall_app. split; [done|]. constructor; [|constructor].
    unfold id. rewrite slice_to_take by done.
    destruct tokens as [|t tokens]; [done|].
    replace (Z.to_nat max_tokens) with (S (Z.to_nat max_tokens - 1)) by lia. done.
Qed.

Lemma split_paragraph_nonempty fuel st para st' :
  Forall (fun c => c <> []) (chunks st) ->
  split_paragraph enc id fuel max_tokens st para = Some st' ->
  Forall (fun c => c <> []) (chunks st').
Proof.
  unfold split_paragraph. destruct st as [cs cc cnt]; simpl. intros Hcs.
  destruct (max_tokens <? cnt + Z.of_nat (length (encode enc para))).
  - assert (Forall (fun c => c <> [])
              (chunks (match cc with
                       | [] => SplitState cs cc cnt
                       | _ :: _ => SplitState (cs ++ [id cc]) [] 0
                       end))) as Hcs'.
    { destruct cc; simpl; [done|]. apply Forall_app. split; [done|].
      by constructor. }
    destruct (max_tokens <? Z.of_nat (length (encode enc para))).
    + destruct (slice_loop id fuel max_tokens (encode enc para) _) as [r|] eqn:Hr;
        simpl; intros [= <-]; simpl.
      by eapply slice_loop_nonempty.
    + by intros [= <-].
  - by intros [= <-].
Qed.

Lemma split_paragraphs_nonempty fuel st paragraphs st' :
  Forall (fun c => c <> []) (chunks st) ->
  split_paragraphs enc id fuel max_tokens st paragraphs = Some st' ->
  Forall (fun c => c <> []) (chunks st').
Proof.
  revert st. induction paragraphs as [|para rest IH]; intros st Hst Hrun.
  - simpl in Hrun. by injection Hrun as <-.
  - simpl in Hrun.
    destruct (split_paragraph enc id fuel max_tokens st para) as [st1|] eqn:Hstep;
      simpl in Hrun; [|done].
    eapply IH; [|done]. by eapply split_paragraph_nonempty.
Qed.

(** X2: with a budget of at least one, no chunk is decoded from an
    empty token buffer. *)
Theorem no_empty_chunk fuel text (tcs : list (list token)) :
  split_text_into_token_chunks fuel text max_tokens enc = Some tcs ->
  Forall (fun c => c <> []) tcs.
Proof.
  unfold split_text_into_token_chunks, split_with. intros Hrun.
  destruct (split_paragraphs enc id fuel max_tokens _ _) as [st|] eqn:Hst;
    simpl in Hrun; [|done].
  injection Hrun as <-.
  apply split_paragraphs_nonempty in Hst; [|constructor].
  unfold final_chunks. destruct (current_chunk st) eqn:E; [done|].
  apply Forall_app. split; [done|]. by constructor.
Qed.

End SplitterContents.

(** *** A text that fits *)

Section FittingText.
Variable enc : encoding.
Variable max_tokens : Z.
Context {C : Type} (emit : list token -> C).

Lemma counts_nonneg (paragraphs : list string) :
  0 <= foldr (fun para acc => Z.of_nat (length (encode enc para)) + 1 + acc) 0 paragraphs.
Proof. induction paragraphs as [|para rest IH]; simpl; lia. Qed.

Lemma split_paragraphs_fit fuel st paragraphs :
  current_token_count st
  + foldr (fun para acc => Z.of_nat (length (encode enc para)) + 1 + acc) 0 paragraphs
  <= max_tokens + 1 ->
  split_paragraphs enc emit fuel max_tokens st paragraphs
  = Some (SplitState (chunks st)
            (current_chunk st
             ++ paragraph_tokens enc paragraphs (replicate (length paragraphs) true))
            (current_token_count st
             + foldr (fun para acc => Z.of_nat (length (encode enc para)) + 1 + acc)
                     0 paragraphs)).
Proof.
  revert st. induction paragraphs as [|para rest IH]; intros st Hfit.
  - simpl. rewrite app_nil_r, Z.add_0_r. by destruct st.
  - simpl in Hfit. pose proof (counts_nonneg rest) as Hrest.
    cbn [split_paragraphs]. unfold split_paragraph at 1.
    destruct (Z.ltb_spec max_tokens
                (current_token_count st + Z.of_nat (length (encode enc para))));
      [lia|].
    simpl. rewrite IH by (simpl; lia). simpl. f_equal. f_equal.
    + by rewrite <- !app_assoc.
    + lia.
Qed.

(** X4: when the counts of the paragraphs, with one more for each
    paragraph but the last, fit the budget, the text goes into a single
    chunk: every paragraph followed by the separator, so with one
    separator more than the text has. No fuel is needed. *)
Theorem fitting_text_is_one_chunk fuel text :
  budget_needed enc (Py.split Py.newline text) <= max_tokens ->
  encode enc Py.nl <> [] ->
  split_with enc emit fuel text max_tokens
  = Some [emit (paragraph_tokens enc (Py.split Py.newline text)
                  (replicate (length (Py.split Py.newline text)) true))].
Proof.
  intros Hfit Hsep. unfold split_with, budget_needed in *.
  rewrite split_paragraphs_fit by (simpl; lia). simpl. unfold final_chunks. simpl.
  pose proof (split_nonempty Py.newline text) as Hne.
  destruct (Py.split Py.newline text) as [|para rest]; [done|]. simpl.
  destruct (encode enc para ++ encode enc Py.nl ++ _) eqn:E; [|done].
  apply app_eq_nil in E as [_ E]. by apply app_eq_nil in E as [? _].
Qed.

End FittingText.

Lemma fitting_text_is_one_chunk_witness :
  split_text_into_chunks 0 ("ab" +:+ Py.nl +:+ "cd") 5 char_encoding
  = Some ["ab" +:+ Py.nl +:+ "cd" +:+ Py.nl].
Proof.
  unfold split_text_into_chunks.
  rewrite (fitting_text_is_one_chunk char_encoding 5 (decode char_encoding) 0
             ("ab" +:+ Py.nl +:+ "cd")); [reflexivity | vm_compute; discriminate | done].
Defined.

Lemma no_empty_chunk_witness :
  Forall (fun c : list token => c <> []) [[97; 98; 10]; [99; 100; 101]; [102]].
Proof.
  apply (no_empty_chunk char_encoding 3 ltac:(lia) 10 ("ab" +:+ Py.nl +:+ "cdef")).
  vm_compute. reflexivity.
Defined.

Lemma chunks_keep_every_token_witness :
  exists separated : list bool,
    length separated = 2%nat /\
    concat [[97; 98; 10]; [99; 100; 101]; [102]]
    = paragraph_tokens char_encoding ["ab"; "cdef"] separated.
Proof.
  apply (chunks_keep_every_token char_encoding 3 10 ("ab" +:+ Py.nl +:+ "cdef")).
  vm_compute. reflexivity.
Defined.

Lemma token_chunks_within_one_witness :
  Forall (within 3 1) [[97; 98; 99; 10]; [100]].
Proof.
  apply (token_chunks_within_one char_encoding 3 ltac:(lia) ltac:(reflexivity) 10
           ("abc" +:+ Py.nl +:+ "d")).
  vm_compute. reflexivity.
Defined.

(** ** The page-range parser: which pages are selected *)

Lemma elem_of_term_pages (total_pages : Z) (t : term) (x : Z) :
  x ∈ term_pages total_pages t <-> 0 <= x < total_pages /\ covers t (x + 1).
Proof.
  destruct t as [page|a b]; simpl.
  - destruct (Z.leb_spec 1 page), (Z.leb_spec page total_pages); simpl;
      rewrite ?list_elem_of_singleton, ?elem_of_nil; lia.
  - unfold Py.range. rewrite elem_of_seqZ. lia.
Qed.

(** Membership in the result, for an expression whose parts are all
    terms. *)
Lemma elem_of_parse_page_range (page_range_str : string) (total_pages : Z)
    (ts : list term) :
  Py.blank page_range_str = false ->
  mapM term_value (Py.split "," page_range_str) = Some ts ->
  forall x,
    x ∈ parse_page_range page_range_str total_pages
    <-> 0 <= x < total_pages /\ exists t, t ∈ ts /\ covers t (x + 1).
Proof.
  intros Hb Hts x. rewrite parse_page_range_terms, Hts by done.
  rewrite elem_of_sorted_set, elem_of_concat. split.
  - intros (l & Hx & (t & -> & Ht)%list_elem_of_fmap).
    apply elem_of_term_pages in Hx as [Hrange Hcov]. eauto.
  - intros (Hrange & t & Ht & Hcov). exists (term_pages total_pages t). split.
    + by apply elem_of_term_pages.
    + apply list_elem_of_fmap. eauto.
Qed.

(** X5: what a non-blank expression selects. When the code reads
    every part as a term, the index [x] is returned exactly when page
    [x + 1] exists and one of the terms covers it: clamping a range and
    dropping a page number only cut the terms down to the pages of the
    document. When it reads some part as no term, nothing is
    returned. *)
Theorem selected_pages (page_range_str : string) (total_pages : Z) (x : Z) :
  Py.blank page_range_str = false ->
  (forall ts,
     mapM term_value (Py.split "," page_range_str) = Some ts ->
     x ∈ parse_page_range page_range_str total_pages
     <-> 0 <= x < total_pages /\ exists t, t ∈ ts /\ covers t (x + 1)) /\
  (mapM term_value (Py.split "," page_range_str) = None ->
   parse_page_range page_range_str total_pages = []).
Proof.
  intros Hb. split.
  - intros ts Hts. by apply elem_of_parse_page_range.
  - intros Hts. by rewrite parse_page_range_terms, Hts.
Qed.

Lemma selected_pages_witness :
  (3 ∈ parse_page_range "2-9,1" 4
   <-> 0 <= 3 < 4 /\ exists t, t ∈ [Range 2 9; Page 1] /\ covers t (3 + 1)) /\
  parse_page_range "1,-3" 4 = [].
Proof.
  split.
  - apply (proj1 (selected_pages "2-9,1" 4 3 eq_refl)). vm_compute. reflexivity.
  - apply (proj2 (selected_pages "1,-3" 4 0 eq_refl)). vm_compute. reflexivity.
Defined.

(** [int] takes a number of 4300 digits and raises on one of 4301, so
    a part with such a number is no term and the expression selects
    nothing. *)
Lemma parse_page_range_digit_bound :
  Py.int (Demo.repeat_string 4300 "9") <> None /\
  Py.int (Demo.repeat_string 4301 "9") = None /\
  Py.int (Demo.repeat_string 4301 "0") = None /\
  parse_page_range ("1," +:+ Demo.repeat_string 4300 "9") 5 = [0] /\
  parse_page_range ("1," +:+ Demo.repeat_string 4301 "9") 5 = [] /\
  parse_page_range ("1-" +:+ Demo.repeat_string 4300 "9") 5 = [0; 1; 2; 3; 4] /\
  parse_page_range ("1-" +:+ Demo.repeat_string 4301 "9") 5 = [].
Proof.
  split; [vm_compute; discriminate|]. repeat (split; [vm_compute; reflexivity|]).
  vm_compute. reflexivity.
Qed.

(** Two strictly ascending lists with the same elements are equal. *)
Lemma strict_sorted_ext (l1 l2 : list Z) :
  StronglySorted Z.lt l1 -> StronglySorted Z.lt l2 ->
  (forall x, x ∈ l1 <-> x ∈ l2) -> l1 = l2.
Proof.
  intros H1. revert l2. induction H1 as [|x l1 Hl1 IH Hx]; intros l2 H2 Hext.
  - destruct l2 as [|y l2]; [done|]. exfalso.
    apply (elem_of_nil y), Hext. left.
  - rewrite Forall_forall in Hx.
    destruct H2 as [|y l2 Hl2 Hy].
    { exfalso. apply (elem_of_nil x), Hext. left. }
    rewrite Forall_forall in Hy.
    assert (x = y) as ->.
    { assert (x ∈ y :: l2) as Hxin by (apply Hext; left).
      assert (y ∈ x :: l1) as Hyin by (apply Hext; left).
      apply elem_of_cons in Hxin as [?|Hxin]; [done|].
      apply elem_of_cons in Hyin as [?|Hyin]; [done|].
      specialize (Hx y Hyin). specialize (Hy x Hxin). lia. }
    f_equal. apply IH; [done|]. intros z. split; intros Hz.
    + assert (z ∈ y :: l2) as Hz' by (apply Hext; by right).
      apply elem_of_cons in Hz' as [->|?]; [|done].
      specialize (Hx y Hz). lia.
    + assert (z ∈ y :: l1) as Hz' by (apply Hext; by right).
      apply elem_of_cons in Hz' as [->|?]; [|done].
      specialize (Hy y Hz). lia.
Qed.

(** X6: among the expressions whose parts the code reads as terms
    throughout, the result depends only on which pages the terms
    cover: two such expressions whose terms cover the same pages of
    the document give the same list, whatever the order of the terms
    and however often a page is named. *)
Theorem same_pages_same_result (s1 s2 : string) (total_pages : Z) (ts1 ts2 : list term) :
  Py.blank s1 = false -> Py.blank s2 = false ->
  mapM term_value (Py.split "," s1) = Some ts1 ->
  mapM term_value (Py.split "," s2) = Some ts2 ->
  (forall number, 1 <= number <= total_pages ->
     (exists t, t ∈ ts1 /\ covers t number) <-> (exists t, t ∈ ts2 /\ covers t number)) ->
  parse_page_range s1 total_pages = parse_page_range s2 total_pages.
Proof.
  intros Hb1 Hb2 Ht1 Ht2 Hsame.
  apply strict_sorted_ext; try apply parse_page_range_strict.
  intros x. rewrite (elem_of_parse_page_range s1 total_pages ts1), (elem_of_parse_page_range s2 total_pages ts2)
    by done.
  split; intros [Hrange Hcov]; (split; [done|]); apply Hsame; (lia || done).
Qed.

Lemma same_pages_same_result_witness :
  parse_page_range "3,1-2,2" 5 = parse_page_range "1-3" 5.
Proof.
  apply (same_pages_same_result "3,1-2,2" "1-3" 5 [Page 3; Range 1 2; Page 2] [Range 1 3]);
    try (vm_compute; reflexivity).
  intros number Hn. split.
  - intros (t & Ht & Hcov). exists (Range 1 3). split; [left|].
    repeat (apply elem_of_cons in Ht as [->|Ht]; [simpl in *; lia|]).
    by apply elem_of_nil in Ht.
  - intros (t & Ht & Hcov). apply list_elem_of_singleton in Ht as ->. simpl in Hcov.
    assert (number = 3 \/ 1 <= number <= 2) as [Hthree|Hlow] by lia.
    + exists (Page 3). split; [left|done].
    + exists (Range 1 2). split; [right; left|done].
Defined.

(** X7: an expression that the code reads as a single range, with
    both sides accepted by [int], returns exactly the pages of the
    range that the document has, in order; when the range reaches
    beyond both ends it returns every page. *)
Theorem lone_range_is_clamped (page_range_str : string) (start end_ total_pages : Z) :
  Py.blank page_range_str = false ->
  mapM term_value (Py.split "," page_range_str) = Some [Range start end_] ->
  parse_page_range page_range_str total_pages
  = seqZ (Z.max 1 start - 1) (Z.min total_pages end_ - Z.max 1 start + 1) /\
  (start <= 1 -> total_pages <= end_ ->
   parse_page_range page_range_str total_pages = seqZ 0 total_pages).
Proof.
  intros Hb Hts.
  assert (parse_page_range page_range_str total_pages
          = seqZ (Z.max 1 start - 1) (Z.min total_pages end_ - Z.max 1 start + 1)) as Hr.
  { apply strict_sorted_ext; [apply parse_page_range_strict| |].
    - replace (Z.min total_pages end_ - Z.max 1 start + 1)
        with (Z.min total_pages end_ - (Z.max 1 start - 1)) by lia.
      apply range_strict.
    - intros x. rewrite (elem_of_parse_page_range _ _ _ Hb Hts), elem_of_seqZ. split.
      + intros (Hrange & t & ->%list_elem_of_singleton & Hcov). simpl in Hcov. lia.
      + intros Hx. split; [lia|]. exists (Range start end_). split; [left|simpl; lia]. }
  split; [done|]. intros Hs He. rewrite Hr. f_equal; lia.
Qed.

Lemma lone_range_is_clamped_witness :
  parse_page_range "0-99" 3 = seqZ 0 3.
Proof.
  apply (lone_range_is_clamped "0-99" 0 99 3); [reflexivity | reflexivity | lia | lia].
Defined.

(** ** Text extraction *)

Lemma list_index_in_range {A} (l : list A) (i : Z) :
  0 <= i < Z.of_nat (length l) ->
  list_index l i = l !! Z.to_nat i /\ is_Some (l !! Z.to_nat i).
Proof.
  intros Hi. unfold list_index. destruct (Z.ltb_spec i 0); [lia|].
  split; [done|]. apply lookup_lt_is_Some. lia.
Qed.



Lemma parse_page_range_all_in_range (s : string) (total_pages : Z) :
  Forall (fun i => 0 <= i < total_pages) (parse_page_range s total_pages).
Proof. apply Forall_forall. intros i. apply parse_page_range_in_range. Qed.



Lemma extract_pages_agree (pages pages' : list page) (indices : list Z) :
  length pages = length pages' ->
  Forall (fun i => 0 <= i < Z.of_nat (length pages)) indices ->
  (forall i, i ∈ indices -> pages !! Z.to_nat i = pages' !! Z.to_nat i) ->
  extract_pages pages indices = extract_pages pages' indices.
Proof.
  intros Hlen Hrange Hsame. induction indices as [|i indices IH]; [done|].
  apply Forall_cons in Hrange as [Hi Hrange]. cbn [extract_pages].
  destruct (list_index_in_range pages i Hi) as [-> _].
  destruct (list_index_in_range pages' i ltac:(lia)) as [-> _].
  rewrite <- (Hsame i) by left.
  rewrite IH; [done|done|]. intros j Hj. apply Hsame. by right.
Qed.

(** X9: the pages outside the selection play no part: two documents
    with as many pages that agree on the selected pages give the same
    result, so a page that cannot be read matters only when it is
    selected. *)
Theorem extract_text_ignores_other_pages (pages pages' : list page)
    (page_range_str : string) :
  length pages = length pages' ->
  (forall i, i ∈ parse_page_range page_range_str (Z.of_nat (length pages)) ->
     pages !! Z.to_nat i = pages' !! Z.to_nat i) ->
  extract_text (Ok pages) page_range_str = extract_text (Ok pages') page_range_str.
Proof.
  intros Hlen Hsame. unfold extract_text. rewrite <- Hlen.
  rewrite (extract_pages_agree pages pages'); [done|done| |done].
  apply parse_page_range_all_in_range.
Qed.

Lemma extract_text_ignores_other_pages_witness :
  extract_text (Ok [Ok (Some "one"); Raise "damaged"]) "1"
  = extract_text (Ok [Ok (Some "one"); Ok (Some "two")]) "1".
Proof.
  apply extract_text_ignores_other_pages; [done|].
  replace (parse_page_range "1" (Z.of_nat 2)) with [0] by (vm_compute; reflexivity).
  intros i ->%list_elem_of_singleton. done.
Defined.

Lemma extract_pages_failure (pages : list page) (indices : list Z) (msg : string) :
  Forall (fun i => 0 <= i < Z.of_nat (length pages)) indices ->
  extract_pages pages indices = Raise msg ->
  exists i, i ∈ indices /\ pages !! Z.to_nat i = Some (Raise msg).
Proof.
  intros Hrange. induction indices as [|i indices IH]; [done|].
  apply Forall_cons in Hrange as [Hi Hrange]. cbn [extract_pages].
  destruct (list_index_in_range pages i Hi) as [-> [p Hp]]. rewrite Hp.
  destruct p as [item|m].
  - destruct (extract_pages pages indices) as [items|m] eqn:Hrest; [done|].
    intros [= <-]. destruct (IH Hrange eq_refl) as (j & Hj & Hpj).
    exists j. split; [by right|done].
  - intros [= <-]. exists i. split; [left|done].
Qed.

Lemma extract_pages_items (pages : list page) (indices : list Z)
    (items : list (option string)) :
  Forall (fun i => 0 <= i < Z.of_nat (length pages)) indices ->
  extract_pages pages indices = Ok items ->
  Forall2 (fun i item => pages !! Z.to_nat i = Some (Ok item)) indices items.
Proof.
  intros Hrange. revert items. induction indices as [|i indices IH]; intros items.
  - intros [= <-]. constructor.
  - apply Forall_cons in Hrange as [Hi Hrange]. cbn [extract_pages].
    destruct (list_index_in_range pages i Hi) as [-> [p Hp]]. rewrite Hp.
    destruct p as [item|m]; [|done].
    destruct (extract_pages pages indices) as [rest|m] eqn:Hrest; [|done].
    intros [= <-]. constructor; [done|]. by apply IH.
Qed.

Lemma join_items_failure (position : nat) (items : list (option string)) (msg : string) :
  join_items position items = Raise msg ->
  None ∈ items /\
  exists k, msg = "sequence item " +:+ decimal k
                  +:+ ": expected str instance, NoneType found".
Proof.
  revert position. induction items as [|[item|] items IH]; intros position; [done| |].
  - simpl. destruct (join_items (S position) items) eqn:E; [done|].
    intros [= <-]. destruct (IH _ E) as [Hin Hk]. split; [by right|done].
  - simpl. intros [= <-]. split; [left|eauto].
Qed.

(** X10: [extract_text] fails for four reasons only, and reports each
    failure once: the document does not open, the range selects no
    page, a selected page raises, or a selected page has no text. It
    never fails on a page index, and it reports nothing when it
    returns a text. *)
Theorem extract_text_failures (pdf : pdf_file) (page_range_str : string)
    (text : option string) (events : list event) :
  extract_text pdf page_range_str = (text, events) ->
  (is_Some text /\ events = []) \/
  (text = None /\
   ((exists m, pdf = Raise m /\ events = [StError ("Error extracting text: " +:+ m)])
    \/ (exists pages, pdf = Ok pages /\
          parse_page_range page_range_str (Z.of_nat (length pages)) = [] /\
          events = [StError ("Invalid page range: " +:+ page_range_str)])
    \/ (exists pages i m, pdf = Ok pages /\
          i ∈ parse_page_range page_range_str (Z.of_nat (length pages)) /\
          pages !! Z.to_nat i = Some (Raise m) /\
          events = [StError ("Error extracting text: " +:+ m)])
    \/ (exists pages i k, pdf = Ok pages /\
          i ∈ parse_page_range page_range_str (Z.of_nat (length pages)) /\
          pages !! Z.to_nat i = Some (Ok None) /\
          events = [StError ("Error extracting text: sequence item " +:+ decimal k
                             +:+ ": expected str instance, NoneType found")]))).
Proof.
  unfold extract_text. destruct pdf as [pages|m].
  2: { intros [= <- <-]. right. split; [done|]. left. eauto. }
  pose proof (parse_page_range_all_in_range page_range_str (Z.of_nat (length pages)))
    as Hrange.
  destruct (parse_page_range page_range_str (Z.of_nat (length pages)))
    as [|i indices] eqn:Hidx.
  { intros [= <- <-]. right. split; [done|]. right. left. eauto. }
  destruct (extract_pages pages (i :: indices)) as [items|m] eqn:Hpages.
  - destruct (join_items 0 items) as [texts|m] eqn:Hjoin.
    + intros [= <- <-]. left. eauto.
    + intros [= <- <-]. right. split; [done|]. do 3 right.
      apply join_items_failure in Hjoin as [Hnone [k ->]].
      apply extract_pages_items in Hpages; [|done].
      apply list_elem_of_lookup in Hnone as [n Hn].
      destruct (Forall2_lookup_r _ _ _ _ _ Hpages Hn) as (j & Hj & Hpj).
      exists pages, j, k. split; [done|]. split; [|split; [done|]].
      * apply list_elem_of_lookup. rewrite ?Hidx. eauto.
      * by rewrite ?append_assoc.
  - intros [= <- <-]. right. split; [done|]. right. right. left.
    apply extract_pages_failure in Hpages as (j & Hj & Hpj); [|done].
    exists pages, j, m. by rewrite ?Hidx.
Qed.

Lemma extract_text_failures_witness :
  exists text events,
    extract_text (Ok [Ok (Some "one"); Ok None]) "2" = (text, events) /\
    events = [StError
      "Error extracting text: sequence item 0: expected str instance, NoneType found"] /\
    ((is_Some text /\ events = []) \/ text = None).
Proof.
  eexists _, _. split; [vm_compute; reflexivity|]. split; [reflexivity|].
  destruct (extract_text_failures (Ok [Ok (Some "one"); Ok None]) "2" None
              [StError "Error extracting text: sequence item 0: expected str instance, NoneType found"]
              ltac:(vm_compute; reflexivity)) as [Hl|[Hr _]];
    [left; exact Hl|right; exact Hr].
Defined.

(** X11: a document without pages is always reported as an invalid
    page range, whatever the expression, the blank one included. *)
Theorem empty_document_is_invalid_range (page_range_str : string) :
  extract_text (Ok []) page_range_str
  = (None, [StError ("Invalid page range: " +:+ page_range_str)]).
Proof.
  unfold extract_text. simpl length.
  pose proof (parse_page_range_all_in_range page_range_str (Z.of_nat 0)) as Hrange.
  destruct (parse_page_range page_range_str (Z.of_nat 0)) as [|i indices]; [done|].
  apply Forall_cons in Hrange as [Hi _]. simpl in Hi. lia.
Qed.

(** ** The orchestrator: requests and modes *)

Section OrchestratorRequests.
Variable enc : encoding.
Variable str_columns : list string -> string.
Variable str_format : string -> string -> result string.
Variable json_loads : string -> option json.
Variable client : Type.
Variable create : client -> request -> result response * client.

Local Abbreviation records_of := (chunk_records str_format json_loads client create).
Local Abbreviation loop := (process_chunks str_format json_loads client create).
Local Abbreviation from_chunks :=
  (extract_from_chunks str_format json_loads client create).
Local Abbreviation budget := (available_tokens enc str_columns str_format).
Local Abbreviation prompt_of := (generate_prompt str_columns).
Local Abbreviation extract :=
  (extract_data_with_openai enc str_columns str_format json_loads client create).
Local Abbreviation records_rec :=
  (chunk_records str_format json_loads (client * list request) (recording create)).
Local Abbreviation loop_rec :=
  (process_chunks str_format json_loads (client * list request) (recording create)).
Local Abbreviation from_chunks_rec :=
  (extract_from_chunks str_format json_loads (client * list request) (recording create)).
Local Abbreviation extract_rec :=
  (extract_data_with_openai enc str_columns str_format json_loads
     (client * list request) (recording create)).

(** The world of the recording service that goes with a world and a
    list of requests. *)
Local Abbreviation with_log w log := (World (remote w, log) (console w)).

Lemma chunk_records_recording tpl chunk (w : world client) (log : list request) :
  records_rec tpl chunk (with_log w log)
  = ((records_of tpl chunk w).1,
     with_log (records_of tpl chunk w).2
              (log ++ option_list (chunk_request str_format tpl chunk))).
Proof.
  unfold chunk_records, chunk_try, chunk_request.
  destruct (str_format tpl chunk) as [prompt|msg]; simpl.
  - unfold mbind, M_bind, mret, M_ret, completions_create, recording. simpl.
    destruct (create (remote w) _) as [[resp|msg] c']; simpl; [|done].
    destruct (choices resp) as [|[json_str|] ?]; done.
  - unfold mbind, M_bind, mret, M_ret. simpl. by rewrite app_nil_r.
Qed.

Lemma process_chunks_recording tpl text_chunks all_data (w : world client)
    (log : list request) :
  loop_rec tpl text_chunks all_data (with_log w log)
  = ((loop tpl text_chunks all_data w).1,
     with_log (loop tpl text_chunks all_data w).2
              (log ++ omap (chunk_request str_format tpl) text_chunks)).
Proof.
  revert all_data w log.
  induction text_chunks as [|chunk rest IH]; intros all_data w log.
  - simpl. by rewrite app_nil_r.
  - rewrite process_chunks_cons, chunk_records_recording. cbn [fst snd].
    rewrite (process_chunks_cons _ _ _ _ tpl chunk rest all_data w).
    rewrite IH. f_equal. f_equal. f_equal. rewrite <- app_assoc. f_equal.
    cbn [omap list_omap]. by destruct (chunk_request str_format tpl chunk).
Qed.

Lemma extract_from_chunks_recording tpl multiple_rows text_chunks (w : world client)
    (log : list request) :
  from_chunks_rec tpl multiple_rows text_chunks (with_log w log)
  = ((from_chunks tpl multiple_rows text_chunks w).1,
     with_log (from_chunks tpl multiple_rows text_chunks w).2
              (log ++ omap (chunk_request str_format tpl) text_chunks)).
Proof.
  destruct text_chunks as [|chunk rest].
  - simpl. by rewrite app_nil_r.
  - rewrite !extract_from_chunks_cons, process_chunks_recording. done.
Qed.

(** X12: the call sends one request for each chunk whose prompt
    renders, in chunk order, each with the model name, the rendered
    prompt, the reserved response length and temperature zero, and no
    other request: none is repeated, and none is sent when the call
    returns before the loop. Recording the requests changes nothing
    else. *)
Theorem one_request_per_chunk fuel text columns instructions api_key multiple_rows
    (w : world client) (log : list request) :
  extract_rec fuel text columns instructions api_key multiple_rows (with_log w log)
  = match extract fuel text columns instructions api_key multiple_rows w with
    | None => None
    | Some (records, w') =>
        Some (records,
              with_log w'
                (log ++
                 match budget columns instructions with
                 | Ok a =>
                     if Py.blank text || (a <=? 0) then []
                     else
                       match split_text_into_chunks fuel text a enc with
                       | Some text_chunks =>
                           omap (chunk_request str_format (prompt_of columns instructions))
                                text_chunks
                       | None => []
                       end
                 | Raise _ => []
                 end))
    end.
Proof.
  unfold extract_data_with_openai.
  destruct (Py.blank text).
  { destruct (budget columns instructions); simpl; by rewrite app_nil_r. }
  destruct (budget columns instructions) as [a|msg]; simpl.
  - destruct (a <=? 0); simpl.
    + by rewrite app_nil_r.
    + destruct (split_text_into_chunks fuel text a enc) as [text_chunks|]; simpl; [|done].
      rewrite extract_from_chunks_recording.
      by destruct (from_chunks (prompt_of columns instructions) multiple_rows text_chunks w).
  - by rewrite app_nil_r.
Qed.

Lemma select_rows_take (multiple_rows : bool) (all_data : list json) :
  select_rows multiple_rows all_data
  = if multiple_rows then all_data else take 1 all_data.
Proof. by destruct all_data, multiple_rows. Qed.

(** X13: single-row mode does the same work as multi-row mode: the
    same requests and the same reports, and it returns the first
    record of what multi-row mode returns. *)
Theorem single_row_is_first_of_multi_row fuel text columns instructions api_key
    (w w' : world client) (records : list json) :
  extract fuel text columns instructions api_key true w = Some (records, w') ->
  extract fuel text columns instructions api_key false w = Some (take 1 records, w').
Proof.
  unfold extract_data_with_openai.
  destruct (Py.blank text); [by intros [= <- <-]|].
  destruct (budget columns instructions) as [a|msg]; [|by intros [= <- <-]].
  destruct (a <=? 0); [by intros [= <- <-]|].
  destruct (split_text_into_chunks fuel text a enc) as [[|chunk rest]|];
    cbn [mbind option_bind]; [| |done].
  - by intros [= <- <-].
  - rewrite !extract_from_chunks_cons, !select_rows_take. by intros [= <- <-].
Qed.

(** X14: when the static prompt does not render, as [format] raises on
    instructions or column names with a stray brace, the call reports
    the failure, sends no request and returns the empty list, whatever
    the text and the fuel. *)
Theorem unrendered_prompt_aborts fuel text columns instructions api_key multiple_rows
    (w : world client) (msg : string) :
  Py.blank text = false ->
  str_format (prompt_of columns instructions) EmptyString = Raise msg ->
  extract fuel text columns instructions api_key multiple_rows w
  = Some ([], World (remote w)
                (console w ++ [StError ("Error during data extraction: " +:+ msg);
                               PrintExc msg])).
Proof.
  intros Hb Hraise. unfold extract_data_with_openai, available_tokens.
  rewrite Hb, Hraise. unfold mbind, M_bind, mret, M_ret, st_error, print_exc. simpl.
  by rewrite <- app_assoc.
Qed.

End OrchestratorRequests.

Lemma single_row_is_first_of_multi_row_witness :
  Demo.extract 10 Demo.short_text ["a"] "dates as ISO" "key" false
    (World [Demo.answer ("Rows: " +:+ Demo.object_a "2" +:+ ", " +:+ Demo.object_a "3")] [])
  = Some (take 1 [JObject [("a", JInt 2)]; JObject [("a", JInt 3)]], World [] []).
Proof.
  apply (single_row_is_first_of_multi_row char_encoding Demo.str_columns Demo.str_format
           Demo.json_loads _ Demo.create).
  vm_compute. reflexivity.
Defined.

Lemma unrendered_prompt_aborts_witness :
  Demo.extract 10 Demo.short_text ["a"] "answer as {name: value}" "key" true
    (World [Demo.answer (Demo.object_a "1")] [])
  = Some ([], World [Demo.answer (Demo.object_a "1")]
                [StError "Error during data extraction: unsupported replacement field";
                 PrintExc "unsupported replacement field"]).
Proof.
  exact (unrendered_prompt_aborts char_encoding Demo.str_columns Demo.str_format
           Demo.json_loads _ Demo.create 10 Demo.short_text ["a"]
           "answer as {name: value}" "key" true
           (World [Demo.answer (Demo.object_a "1")] [])
           "unsupported replacement field"
           ltac:(vm_compute; reflexivity) ltac:(vm_compute; reflexivity)).
Defined.

(** ** The candidates of a response *)

Lemma findall_spec_shape (s : string) (ms : list string) :
  findall_spec s ms ->
  Forall (fun m => exists body, m = "{" +:+ body +:+ "}" /\
                     Py.contains "}" body = false /\
                     Py.contains Py.newline body = false) ms /\
  exists gaps, length gaps = S (length ms) /\ s = weave gaps ms.
Proof.
  induction 1 as [|s m rest ms Hm _ [IHshape (gaps & Hlen & IHweave)]
                  |c s ms Hno _ [IHshape (gaps & Hlen & IHweave)]].
  - split; [constructor|]. by exists [EmptyString].
  - apply match_at_inv in Hm as (body & -> & -> & Hb & Hn). split.
    + constructor; [|done]. by exists body.
    + exists (EmptyString :: gaps). split; [simpl; by rewrite Hlen|].
      destruct gaps as [|gap gaps]; [done|].
      change (weave (EmptyString :: gap :: gaps) (String "{" (body +:+ "}") :: ms))
        with (EmptyString +:+ String "{" (body +:+ "}") +:+ weave (gap :: gaps) ms).
      rewrite <- IHweave. simpl. f_equal. by rewrite append_assoc.
  - split; [done|]. destruct gaps as [|gap gaps]; [done|].
    exists (String c gap :: gaps). split; [done|].
    rewrite IHweave. by destruct ms.
Qed.

(** X15: whatever the response, every candidate runs from a left brace
    to the first right brace after it, with no right brace and no line
    break inside, so an object that holds another object is never a
    candidate as a whole; and the candidates are pieces of the response
    that follow one another without overlap. *)
Theorem candidates_are_flat_pieces (s : string) :
  Forall (fun m => exists body, m = "{" +:+ body +:+ "}" /\
                     Py.contains "}" body = false /\
                     Py.contains Py.newline body = false)
         (findall_objects s) /\
  exists gaps, length gaps = S (length (findall_objects s)) /\
               s = weave gaps (findall_objects s).
Proof. apply findall_spec_shape, findall_from_spec. Qed.

(** ** The column list *)

Lemma remove_first_subset (x y : string) (l : list string) :
  x ∈ Session.remove_first y l -> x ∈ l.
Proof.
  induction l as [|z l IH]; simpl; [done|].
  destruct (String.eqb z y); [by right|].
  intros [->|Hx]%elem_of_cons; [left|right; by apply IH].
Qed.

Lemma remove_first_NoDup (y : string) (l : list string) :
  NoDup l -> NoDup (Session.remove_first y l).
Proof.
  induction 1 as [|z l Hz Hl IH]; simpl; [constructor|].
  destruct (String.eqb z y); [done|].
  constructor; [|done]. intros Hin. by apply Hz, (remove_first_subset _ y).
Qed.

Lemma remove_first_delete (l : list string) (i : nat) (x : string) :
  NoDup l -> l !! i = Some x -> Session.remove_first x l = delete i l.
Proof.
  intros Hnd. revert i. induction Hnd as [|z l Hz Hl IH]; intros i Hi; [done|].
  destruct i as [|i]; simpl in *.
  - injection Hi as ->. by rewrite String.eqb_refl.
  - destruct (String.eqb_spec z x) as [->|_].
    + exfalso. apply Hz. by eapply list_elem_of_lookup_2.
    + f_equal. by apply IH.
Qed.

(** X16: the column list stays a list of distinct, non-empty names
    under both actions of the form, adding a column and deleting
    one. *)
Theorem column_list_stays_distinct (st : Session.state) :
  NoDup (Session.columns st) -> EmptyString ∉ Session.columns st ->
  (forall new_column add_button,
     NoDup (Session.columns (Session.add_column new_column add_button st).1) /\
     EmptyString ∉ Session.columns (Session.add_column new_column add_button st).1) /\
  (forall idx,
     NoDup (Session.columns (Session.delete_column idx st).1) /\
     EmptyString ∉ Session.columns (Session.delete_column idx st).1).
Proof.
  intros Hnd Hne. split.
  - intros new_column add_button. unfold Session.add_column.
    destruct new_column as [|c new_column]; [done|].
    destruct (add_button || _); [|done].
    case_bool_decide as Hin; [done|]. simpl. split.
    + apply NoDup_app. split; [done|]. split; [|apply NoDup_singleton].
      intros x Hx ->%list_elem_of_singleton. done.
    + intros [?|?%list_elem_of_singleton]%elem_of_app; done.
  - intros idx. unfold Session.delete_column.
    destruct (Session.columns st !! idx) as [column|]; [|done]. simpl. split.
    + by apply remove_first_NoDup.
    + intros Hin. by apply Hne, (remove_first_subset _ column).
Qed.

Lemma column_list_stays_distinct_witness :
  NoDup (Session.columns
           (Session.add_column "total" true (Session.State ["date"; "total"] None)).1) /\
  NoDup (Session.columns
           (Session.delete_column 0 (Session.State ["date"; "total"] None)).1).
Proof.
  destruct (column_list_stays_distinct (Session.State ["date"; "total"] None))
    as [Hadd Hdel].
  - simpl. apply (NoDup_cons_2 "date" ["total"]).
    + intros [=]%list_elem_of_singleton.
    + apply NoDup_singleton.
  - simpl. intros [[=]|[[=]|[]%elem_of_nil]%elem_of_cons]%elem_of_cons.
  - split; [apply Hadd|apply Hdel].
Defined.

(** X17: on a list of distinct names the delete button of a column
    takes out the column at its position and nothing else, and asks
    for a rerun; a position beyond the list changes nothing. *)
Theorem delete_column_removes_position (st : Session.state) (idx : nat) :
  NoDup (Session.columns st) ->
  Session.columns (Session.delete_column idx st).1 = delete idx (Session.columns st) /\
  Session.last_new_column (Session.delete_column idx st).1 = Session.last_new_column st /\
  (Session.delete_column idx st).2 = bool_decide (idx < length (Session.columns st))%nat.
Proof.
  intros Hnd. unfold Session.delete_column.
  destruct (Session.columns st !! idx) as [column|] eqn:Hidx; simpl.
  - split; [by apply remove_first_delete|]. split; [done|].
    apply lookup_lt_Some in Hidx. by rewrite bool_decide_eq_true_2.
  - apply lookup_ge_None in Hidx. split; [|split; [done|]].
    + rewrite delete_take_drop, take_ge, drop_ge, app_nil_r by lia. done.
    + rewrite bool_decide_eq_false_2; [done|lia].
Qed.

Lemma delete_column_removes_position_witness :
  Session.columns (Session.delete_column 1 (Session.State ["date"; "total"; "tax"] None)).1
  = ["date"; "tax"].
Proof.
  destruct (delete_column_removes_position
              (Session.State ["date"; "total"; "tax"] None) 1) as [H _].
  - simpl. apply (bool_decide_unpack _). vm_compute. reflexivity.
  - exact H.
Defined.

(** X18: a deleted column does not come back by itself. After a name
    was added, in every later run of the form that still holds the
    name in its input and has no Add button pressed, the handler of
    the input changes nothing, whatever column is deleted in that run:
    the list after the runs is the list after the deletions alone. *)
Theorem deleted_column_stays_deleted (st st1 : Session.state) (new_column : string)
    (add_button : bool) (deletions : list nat) :
  Session.add_column new_column add_button st = (st1, true) ->
  let run := fun s idx =>
    (Session.delete_column idx (Session.add_column new_column false s).1).1 in
  let st2 := foldl run st1 deletions in
  st2 = foldl (fun s idx => (Session.delete_column idx s).1) st1 deletions /\
  Session.add_column new_column false st2 = (st2, false).
Proof.
  intros Hadd run st2.
  assert (Session.last_new_column st1 = Some new_column) as Hlast.
  { unfold Session.add_column in Hadd. destruct new_column; [done|].
    destruct (add_button || _); [|done]. case_bool_decide; [done|].
    by injection Hadd as <-. }
  assert (forall s, Session.last_new_column s = Some new_column ->
            Session.add_column new_column false s = (s, false)) as Hidle.
  { intros s Hs. unfold Session.add_column. destruct new_column; [done|].
    rewrite Hs. simpl. by rewrite bool_decide_eq_true_2. }
  assert (st2 = foldl (fun s idx => (Session.delete_column idx s).1) st1 deletions
          /\ Session.last_new_column st2 = Some new_column) as [Hst2 Hlast2].
  { unfold st2. clear st2 Hadd. revert st1 Hlast.
    induction deletions as [|idx deletions IH]; intros st1 Hlast; [done|].
    simpl. unfold run at 2 4. rewrite (Hidle st1 Hlast). simpl. apply IH.
    unfold Session.delete_column. by destruct (Session.columns st1 !! idx). }
  split; [done|]. by apply Hidle.
Qed.

Lemma deleted_column_stays_deleted_witness :
  Session.add_column "tax" false (Session.State ["date"] (Some "tax"))
  = (Session.State ["date"] (Some "tax"), false).
Proof.
  exact (proj2 (deleted_column_stays_deleted (Session.State ["date"] None)
                  (Session.State ["date"; "tax"] (Some "tax")) "tax" true [1%nat]
                  eq_refl)).
Defined.

(** ** The loop over the uploaded files *)

Lemma members_get_set (key : string) (value : json) (members : list (string * json)) :
  members_get key (members_set key value members) = Some value.
Proof.
  induction members as [|[k v] members IH]; simpl.
  - by rewrite String.eqb_refl.
  - destruct (String.eqb k key) eqn:E; simpl; [by rewrite String.eqb_refl|].
    by rewrite E.
Qed.

Lemma tag_items_tagged (file_name : string) (data tagged : list json) :
  tag_items file_name data = Ok tagged ->
  length tagged = length data /\
  Forall (fun item => getitem item "source_file" = Some (JString file_name)) tagged.
Proof.
  revert tagged. induction data as [|item data IH]; intros tagged; simpl.
  - intros [= <-]. split; [done|constructor].
  - destruct item as [| | | | | |members]; simpl; try done.
    destruct (tag_items file_name data) as [rest|] eqn:Hrest; [|done].
    intros [= <-]. destruct (IH rest eq_refl) as [Hlen Hall]. split.
    + simpl. by rewrite Hlen.
    + constructor; [|done]. simpl. apply members_get_set.
Qed.

Section MainFacts.
Variable enc : encoding.
Variable str_columns : list string -> string.
Variable str_format : string -> string -> result string.
Variable json_loads : string -> option json.
Variable client : Type.
Variable create : client -> request -> result response * client.
Variable fuel : nat.
Variable api_key : string.
Variable columns : list string.
Variable instructions page_range : string.
Variable multiple_rows : bool.

Local Abbreviation files_loop :=
  (process_files enc str_columns str_format json_loads client create fuel api_key
     columns instructions page_range multiple_rows).
Local Abbreviation result_of :=
  (file_result_of enc str_columns str_format json_loads create fuel api_key
     columns instructions page_range multiple_rows).

(** The records and the service do not depend on what the page shows
    nor on the numbers given to the progress bar. *)
Lemma outcome_numbering (files : list uploaded_file) total idx total' idx'
    (all_data : list json) (u u' : ui_world client) :
  service u = service u' ->
  outcome (files_loop total idx files all_data u)
  = outcome (files_loop total' idx' files all_data u').
Proof.
  revert idx idx' all_data u u'.
  induction files as [|f files IH]; intros idx idx' all_data u u' Hservice.
  - simpl. by rewrite Hservice.
  - cbn [process_files].
    destruct (negb (String.eqb (type f) "application/pdf")); [by apply IH|].
    destruct (extract_text (document f) page_range) as [[[|ch text]|] events];
      try (by apply IH).
    cbn [service show]. rewrite Hservice.
    destruct (extract_data_with_openai _ _ _ _ _ _ _ _ _ _ _ _ _) as [[data w]|];
      [|done].
    destruct (tag_items (name f) data) as [tagged|msg]; [|done].
    by apply IH.
Qed.

(** One file at a time. *)
Lemma outcome_cons (f : uploaded_file) (files : list uploaded_file) total idx
    (all_data : list json) (u : ui_world client) :
  outcome (files_loop total idx (f :: files) all_data u)
  = match result_of f (service u) with
    | FileSkipped => outcome (files_loop total (S idx) files all_data u)
    | FileDone tagged c =>
        outcome (files_loop total (S idx) files (all_data ++ tagged)
                   (UiWorld c (screen u)))
    | FileCrashed msg c => Some (Raise msg, c)
    | FileOutOfFuel => None
    end.
Proof.
  cbn [process_files]. unfold file_result_of.
  destruct (negb (String.eqb (type f) "application/pdf")); [by apply outcome_numbering|].
  destruct (extract_text (document f) page_range) as [[[|ch text]|] events];
    cbn [fst]; try (by apply outcome_numbering).
  cbn [service show].
  destruct (extract_data_with_openai _ _ _ _ _ _ _ _ _ _ _ _ _) as [[data w]|];
    [|done].
  destruct (tag_items (name f) data) as [tagged|msg]; [|done].
  by apply outcome_numbering.
Qed.

Lemma file_done_tagged (f : uploaded_file) (c c' : client) (tagged : list json) :
  result_of f c = FileDone tagged c' ->
  type f = "application/pdf" /\
  Forall (fun item => getitem item "source_file" = Some (JString (name f))) tagged.
Proof.
  unfold file_result_of.
  destruct (String.eqb_spec (type f) "application/pdf") as [Htype|_]; [|done]. simpl.
  destruct ((extract_text (document f) page_range).1) as [[|ch text]|]; try done.
  destruct (extract_data_with_openai _ _ _ _ _ _ _ _ _ _ _ _ _) as [[data w]|];
    [|done].
  destruct (tag_items (name f) data) as [tagged'|msg] eqn:Htag; [|done].
  intros [= <- <-]. split; [done|]. by apply tag_items_tagged in Htag as [_ ?].
Qed.

Lemma outcome_tagged (files : list uploaded_file) total idx
    (all_data result_data : list json) (u : ui_world client) (c : client) :
  outcome (files_loop total idx files all_data u) = Some (Ok result_data, c) ->
  exists added,
    result_data = all_data ++ added /\
    Forall (fun item =>
              exists f, f ∈ files /\ type f = "application/pdf" /\
                        getitem item "source_file" = Some (JString (name f)))
           added.
Proof.
  revert idx all_data u. induction files as [|f files IH]; intros idx all_data u.
  - simpl. intros [= <- <-]. exists []. by rewrite app_nil_r.
  - rewrite outcome_cons.
    pose proof (file_done_tagged f (service u)) as Hdone.
    destruct (result_of f (service u)) as [|tagged c'|msg c'|]; [| |done|done].
    + intros (added & -> & Hall)%IH. exists added. split; [done|].
      eapply Forall_impl; [exact Hall|]. intros item (g & Hg & Hrest).
      exists g. split; [by right|done].
    + destruct (Hdone c' tagged eq_refl) as [Htype Htagged].
      intros (added & -> & Hall)%IH. exists (tagged ++ added).
      split; [by rewrite app_assoc|]. apply Forall_app. split.
      * eapply Forall_impl; [exact Htagged|]. intros item Hitem.
        exists f. split; [left|done].
      * eapply Forall_impl; [exact Hall|]. intros item (g & Hg & Hrest).
        exists g. split; [by right|done].
Qed.

(** X19: when the files are processed without an exception, every
    record that is returned and shown carries, under the key
    [source_file], the name of one of the uploaded files of type
    PDF. *)
Theorem shown_records_carry_their_file_name (files : list uploaded_file)
    (result_data : list json) (u u' : ui_world client) :
  process_button_pressed enc str_columns str_format json_loads client create fuel
    api_key columns instructions page_range multiple_rows files u
  = Some (Ok result_data, u') ->
  Forall (fun item =>
            exists f, f ∈ files /\ type f = "application/pdf" /\
                      getitem item "source_file" = Some (JString (name f)))
         result_data.
Proof.
  unfold process_button_pressed.
  destruct api_key as [|a key] eqn:Hkey; [by intros [= <- _]|].
  destruct columns as [|column others] eqn:Hcolumns; [by intros [= <- _]|].
  rewrite <- Hkey, <- Hcolumns.
  destruct (files_loop _ _ _ _ _) as [[[all_data|msg] u1]|] eqn:Hrun; [| done | done].
  apply (f_equal outcome) in Hrun. simpl in Hrun.
  apply outcome_tagged in Hrun as (added & -> & Hall). simpl app.
  destruct added; intros [= <- _]; [constructor|done].
Qed.

(** X20: a file that is no PDF, or whose text extraction fails or
    gives the empty text, is passed over: the records returned and the
    requests sent are those of the other files, as if the file had not
    been uploaded. *)
Theorem passed_over_file_changes_nothing (pre post : list uploaded_file)
    (f : uploaded_file) total idx total' idx' (all_data : list json)
    (u : ui_world client) :
  type f <> "application/pdf"
  \/ (extract_text (document f) page_range).1 = None
  \/ (extract_text (document f) page_range).1 = Some EmptyString ->
  outcome (files_loop total idx (pre ++ f :: post) all_data u)
  = outcome (files_loop total' idx' (pre ++ post) all_data u).
Proof.
  intros Hskip.
  assert (forall c, result_of f c = FileSkipped) as Hf.
  { intros c. unfold file_result_of.
    destruct (String.eqb_spec (type f) "application/pdf") as [Htype|_]; [|done]. simpl.
    destruct Hskip as [?|[->| ->]]; done. }
  revert idx idx' all_data u. induction pre as [|g pre IH]; intros idx idx' all_data u.
  - simpl app. rewrite outcome_cons, Hf. by apply outcome_numbering.
  - rewrite <- !app_comm_cons, !outcome_cons.
    destruct (result_of g (service u)); [apply IH|apply IH|done|done].
Qed.

End MainFacts.

Lemma shown_records_carry_their_file_name_witness :
  Forall (fun item =>
            exists f, f ∈ [UploadedFile "notes.txt" "text/plain" (Raise "no PDF");
                           UploadedFile "bill.pdf" "application/pdf" (Ok [Ok (Some "ab")])]
                      /\ type f = "application/pdf" /\
                      getitem item "source_file" = Some (JString (name f)))
         [JObject [("a", JInt 1); ("source_file", JString "bill.pdf")]].
Proof.
  apply (shown_records_carry_their_file_name char_encoding Demo.str_columns
           Demo.str_format Demo.json_loads _ Demo.create 10 "key" ["a"] "dates as ISO"
           EmptyString true _ _
           (UiWorld [Demo.answer (Demo.object_a "1")] [])
           (UiWorld []
              [Progress 0 1; Shown (StError "Only PDF files are currently supported");
               Progress 2 2;
               DataPreview [JObject [("a", JInt 1); ("source_file", JString "bill.pdf")]]])).
  vm_compute. reflexivity.
Defined.

Lemma passed_over_file_changes_nothing_witness :
  outcome (process_files char_encoding Demo.str_columns Demo.str_format Demo.json_loads
             _ Demo.create 10 "key" ["a"] "dates as ISO" EmptyString true 2 0
             ([] ++ UploadedFile "notes.txt" "text/plain" (Raise "no PDF")
                 :: [UploadedFile "bill.pdf" "application/pdf" (Ok [Ok (Some "ab")])])
             [] (UiWorld [Demo.answer (Demo.object_a "1")] []))
  = outcome (process_files char_encoding Demo.str_columns Demo.str_format Demo.json_loads
               _ Demo.create 10 "key" ["a"] "dates as ISO" EmptyString true 1 0
               ([] ++ [UploadedFile "bill.pdf" "application/pdf" (Ok [Ok (Some "ab")])])
               [] (UiWorld [Demo.answer (Demo.object_a "1")] [])).
Proof.
  apply passed_over_file_changes_nothing. left. vm_compute. discriminate.
Defined.
